(** * gstore_fdw: a shallow embedding of the GPU data store

    The development follows [src/gstore_fdw.c]: MVCC visibility of a row
    ([gstoreCheckVisibilityForRead], [gstoreCheckVisibilityForWrite]), the
    hierarchical row-id bitmap ([__gstoreFdwAllocateRowId],
    [__gstoreFdwReleaseRowId]), the primary-key hash chain
    ([lookupGpuStorePrimaryKey]), the REDO log writer
    ([gstoreFdwAppendRedoLog], [__gstoreFdwSwitchRedoLog]), its replay
    ([__ApplyRedoLogMain], [gstoreFdwApplyRedoLog]) and the row insertion
    ([GstoreExecForeignInsert]).

    Machine integers are [Z] with the wrap-around written out; C arrays are
    lists indexed through [Z.to_nat]; functions that write through a pointer
    return the updated object next to their result. *)

From Stdlib Require Import ZArith Lia Bool List.
From stdpp Require Import base option list gmap strings pretty.

#[local] Open Scope Z_scope.

(** ** Machine integers *)

Definition u32 (z : Z) : Z := z mod 2 ^ 32.
Definition u64 (z : Z) : Z := z mod 2 ^ 64.
Definition UINT_MAX : Z := 2 ^ 32 - 1.
Definition ULONG_MAX : Z := 2 ^ 64 - 1.

(** [(int32) z]: the two's complement reading of the low 32 bits. *)
Definition int32 (z : Z) : Z :=
  let w := u32 z in if w <? 2 ^ 31 then w else w - 2 ^ 32.

(** [TYPEALIGN(a, len)] for a power of two [a], and its instances. *)
Definition TYPEALIGN (a len : Z) : Z := Z.land (len + (a - 1)) (Z.lnot (a - 1)).
Definition MAXALIGN (len : Z) : Z := TYPEALIGN 8 len.
Definition PAGE_SIZE : Z := 4096.
Definition PAGE_ALIGN (len : Z) : Z := TYPEALIGN PAGE_SIZE len.

(** ** Transactions (PostgreSQL's transam.h) *)

Module Xact.

Definition TransactionId := Z.
Definition CommandId := Z.

Definition InvalidTransactionId : TransactionId := 0.
Definition BootstrapTransactionId : TransactionId := 1.
Definition FrozenTransactionId : TransactionId := 2.
Definition FirstNormalTransactionId : TransactionId := 3.

Definition TransactionIdIsNormal (xid : TransactionId) : bool :=
  FirstNormalTransactionId <=? xid.

(** transam.c: a permanent id compares as an unsigned number, two normal
    ids compare modulo 2^32. *)
Definition TransactionIdPrecedes (id1 id2 : TransactionId) : bool :=
  if negb (TransactionIdIsNormal id1) || negb (TransactionIdIsNormal id2)
  then id1 <? id2
  else int32 (id1 - id2) <? 0.

(** What the transaction manager answers at the time of a check. *)
Record XactEnv := {
  TransactionIdIsCurrentTransactionId : TransactionId -> bool;
  TransactionIdIsInProgress : TransactionId -> bool;
  TransactionIdDidCommit : TransactionId -> bool
}.

(** The snapshot a reader holds (snapshot.h): [xip] lists the transactions
    that were in progress when the snapshot was taken. *)
Record SnapshotData := {
  snap_xmin : TransactionId;
  snap_xmax : TransactionId;
  xip : list TransactionId;
  curcid : CommandId
}.

End Xact.
Export Xact.

(** ** The system column of a row *)

Record GstoreFdwSysattr := {
  xmin : TransactionId;
  xmax : TransactionId;
  cid : CommandId
}.

Definition set_xmin (v : TransactionId) (s : GstoreFdwSysattr) : GstoreFdwSysattr :=
  {| xmin := v; xmax := xmax s; cid := cid s |}.
Definition set_xmax (v : TransactionId) (s : GstoreFdwSysattr) : GstoreFdwSysattr :=
  {| xmin := xmin s; xmax := v; cid := cid s |}.
Definition set_cid (v : CommandId) (s : GstoreFdwSysattr) : GstoreFdwSysattr :=
  {| xmin := xmin s; xmax := xmax s; cid := v |}.

(** ** The columnar store *)

Module KDS.

Definition Datum := Z.

(** [kern_data_store] in column format: the user columns ([colmeta] keeps
    their [attlen], -1 for a variable-length one), the system column, and
    the bookkeeping of the extra buffer.  [usage] is in bytes
    ([__kds_unpack(kds->usage)]).  A cell that was never stored, or stored
    as NULL, is absent from [cells]; a system attribute never stored is
    all zero, as in the freshly allocated file. *)
Record kern_data_store := {
  nrooms : Z;
  nitems : Z;
  colmeta : list Z;
  has_varlena : bool;
  usage : Z;
  extra_hoffset : Z;
  extra_hlength : Z;
  cells : gmap (Z * Z) Datum;
  syscol : gmap Z GstoreFdwSysattr
}.

Definition zero_sysattr : GstoreFdwSysattr := {| xmin := 0; xmax := 0; cid := 0 |}.

Definition sysattr_at (kds : kern_data_store) (rowid : Z) : GstoreFdwSysattr :=
  default zero_sysattr (syscol kds !! rowid).

Definition set_sysattr (kds : kern_data_store) (rowid : Z) (s : GstoreFdwSysattr)
  : kern_data_store :=
  {| nrooms := nrooms kds; nitems := nitems kds; colmeta := colmeta kds;
     has_varlena := has_varlena kds; usage := usage kds;
     extra_hoffset := extra_hoffset kds; extra_hlength := extra_hlength kds;
     cells := cells kds; syscol := <[rowid := s]> (syscol kds) |}.

Definition set_cells (kds : kern_data_store) (c : gmap (Z * Z) Datum) (u : Z)
  : kern_data_store :=
  {| nrooms := nrooms kds; nitems := nitems kds; colmeta := colmeta kds;
     has_varlena := has_varlena kds; usage := u;
     extra_hoffset := extra_hoffset kds; extra_hlength := extra_hlength kds;
     cells := c; syscol := syscol kds |}.

Definition set_extra_hlength (kds : kern_data_store) (len : Z) : kern_data_store :=
  {| nrooms := nrooms kds; nitems := nitems kds; colmeta := colmeta kds;
     has_varlena := has_varlena kds; usage := usage kds;
     extra_hoffset := extra_hoffset kds; extra_hlength := len;
     cells := cells kds; syscol := syscol kds |}.

Definition set_nitems (kds : kern_data_store) (n : Z) : kern_data_store :=
  {| nrooms := nrooms kds; nitems := n; colmeta := colmeta kds;
     has_varlena := has_varlena kds; usage := usage kds;
     extra_hoffset := extra_hoffset kds; extra_hlength := extra_hlength kds;
     cells := cells kds; syscol := syscol kds |}.

Section Varlena.
(** [VARSIZE_ANY] of a variable-length datum. *)
Variable VARSIZE_ANY : Datum -> Z.

(** Modelled from the spec: [KDS_fetch_datum_column] is not part of this
    file.  "fetch(rowid, col) reads a single field": the result is the
    datum, [None] standing for [*isnull = true]. *)
Definition KDS_fetch_datum_column (kds : kern_data_store) (j rowid : Z)
  : option Datum :=
  cells kds !! (j, rowid).

(** Modelled from the spec: [KDS_store_datum_column] is not part of this
    file.  "store(rowid, col, value, isNull) writes a single field; for
    variable-length columns, store allocates bytes in the out-of-line
    region, writing back a packed offset": the cell takes the value, and a
    variable-length value moves [usage] forward by its aligned size. *)
Definition KDS_store_datum_column (kds : kern_data_store) (j rowid : Z)
    (datum : option Datum) : kern_data_store :=
  match datum with
  | None => set_cells kds (delete (j, rowid) (cells kds)) (usage kds)
  | Some d =>
      if default 0 (colmeta kds !! Z.to_nat j) =? -1
      then set_cells kds (<[(j, rowid) := d]> (cells kds))
                     (usage kds + MAXALIGN (VARSIZE_ANY d))
      else set_cells kds (<[(j, rowid) := d]> (cells kds)) (usage kds)
  end.

End Varlena.

End KDS.
Export KDS.

(** ** Visibility *)

Module Visibility.

Section WithEnv.
Variable env : XactEnv.

(** The first half of [__gstoreCheckVisibilityForRead]: the inserting
    transaction.  [inl b] is a [return b]; [inr tt] falls through to the
    deleting transaction. *)
Definition read_xmin_phase (sysattr : GstoreFdwSysattr) (curr_cid : CommandId)
  : (bool + unit) * GstoreFdwSysattr :=
  if negb (xmin sysattr =? FrozenTransactionId) then
    if TransactionIdIsCurrentTransactionId env (xmin sysattr) then
      if curr_cid <=? cid sysattr then (inl false, sysattr)
      else if xmax sysattr =? InvalidTransactionId then (inl true, sysattr)
      else if xmax sysattr =? FrozenTransactionId then (inl false, sysattr)
      else if negb (TransactionIdIsCurrentTransactionId env (xmax sysattr))
           then (inl true, sysattr)
      else (inr tt, sysattr)
    else if TransactionIdDidCommit env (xmin sysattr) then
      (inr tt, set_xmin FrozenTransactionId sysattr)
    else if TransactionIdIsInProgress env (xmin sysattr) then
      (inl false, sysattr)
    else (inl false, set_xmin InvalidTransactionId sysattr)
  else (inr tt, sysattr).

(** The second half: the deleting transaction. *)
Definition read_xmax_phase (sysattr : GstoreFdwSysattr) (curr_cid : CommandId)
  : bool * GstoreFdwSysattr :=
  if xmax sysattr =? InvalidTransactionId then (true, sysattr)
  else if negb (xmax sysattr =? FrozenTransactionId) then
    if TransactionIdIsCurrentTransactionId env (xmax sysattr) then
      if curr_cid <=? cid sysattr then (true, sysattr) else (false, sysattr)
    else if TransactionIdIsInProgress env (xmax sysattr) then (true, sysattr)
    else if TransactionIdDidCommit env (xmax sysattr) then
      (false, set_xmax FrozenTransactionId sysattr)
    else (false, set_xmax InvalidTransactionId sysattr)
  else (false, sysattr).

Definition __gstoreCheckVisibilityForRead
    (sysattr : GstoreFdwSysattr) (curr_cid : CommandId)
  : bool * GstoreFdwSysattr :=
  match read_xmin_phase sysattr curr_cid with
  | (inl b, s) => (b, s)
  | (inr _, s) => read_xmax_phase s curr_cid
  end.

(** [gstoreCheckVisibilityForRead]: the entry of the row in the system
    column is checked, and updated, in place; of the snapshot only
    [curcid] is read. *)
Definition gstoreCheckVisibilityForRead
    (kds : kern_data_store) (rowid : Z) (snapshot : SnapshotData)
  : bool * kern_data_store :=
  let '(retval, s) :=
    __gstoreCheckVisibilityForRead (sysattr_at kds rowid) (curcid snapshot) in
  (retval, set_sysattr kds rowid s).

(** [gstoreCheckVisibilityForWrite], first on the system attributes of
    the row: the inserting transaction, then the deleting one. *)
Definition write_xmin_phase (sysattr : GstoreFdwSysattr)
  : (bool + unit) * GstoreFdwSysattr :=
  if negb (xmin sysattr =? FrozenTransactionId) then
    if xmin sysattr =? InvalidTransactionId then (inl true, sysattr)
    else if TransactionIdIsCurrentTransactionId env (xmin sysattr) then
      (inl false, sysattr)
    else if TransactionIdIsInProgress env (xmin sysattr) then
      (inl false, sysattr)
    else if TransactionIdDidCommit env (xmin sysattr) then
      (inr tt, set_xmin FrozenTransactionId sysattr)
    else (inl true, set_xmin InvalidTransactionId sysattr)
  else (inr tt, sysattr).

Definition write_xmax_phase (sysattr : GstoreFdwSysattr) (oldestXmin : TransactionId)
  : bool * GstoreFdwSysattr :=
  if xmax sysattr =? InvalidTransactionId then (false, sysattr)
  else
    let after :=
      if negb (xmax sysattr =? FrozenTransactionId) then
        if TransactionIdIsInProgress env (xmax sysattr) then (inl false, sysattr)
        else if TransactionIdDidCommit env (xmax sysattr) then
          (inr tt, set_xmax InvalidTransactionId sysattr)
        else (inl false, set_xmax InvalidTransactionId sysattr)
      else (inr tt, sysattr) in
    match after with
    | (inl b, s) => (b, s)
    | (inr _, s) =>
        if negb (TransactionIdPrecedes (xmax s) oldestXmin) then (false, s)
        else (true, s)
    end.

Definition CheckVisibilityForWrite_sysattr
    (sysattr : GstoreFdwSysattr) (oldestXmin : TransactionId)
  : bool * GstoreFdwSysattr :=
  match write_xmin_phase sysattr with
  | (inl b, s) => (b, s)
  | (inr _, s) => write_xmax_phase s oldestXmin
  end.

Definition gstoreCheckVisibilityForWrite
    (kds : kern_data_store) (rowid : Z) (oldestXmin : TransactionId)
  : bool * kern_data_store :=
  let '(retval, s) :=
    CheckVisibilityForWrite_sysattr (sysattr_at kds rowid) oldestXmin in
  (retval, set_sysattr kds rowid s).

End WithEnv.

End Visibility.
Export Visibility.

(** ** The row-id map

    [GpuStoreRowIdMapHead.base] is an array of 64-bit words inside the
    mapped base file, and C checks no bound on it.  A pointer into it is
    the index of a word.  The list holds the words of the file from
    [base] on, as far as they are given; the file is zero-filled
    ([posix_fallocate]), so a word behind the list reads as 0, and a
    write behind the list is kept: the list grows, with zeros, up to the
    word written. *)

Module RowIdMap.

Definition rd (m : list Z) (i : Z) : Z := u64 (default 0 (m !! Z.to_nat i)).
Definition wr (m : list Z) (i : Z) (v : Z) : list Z :=
  if (Z.to_nat i <? List.length m)%nat then <[Z.to_nat i := v]> m
  else m ++ replicate (Z.to_nat i - List.length m) 0 ++ [v].

(** [gstoreFdwRowIdMapSize]: the number [n] of words of [base[]] (the
    function returns [offsetof(GpuStoreRowIdMapHead, base[n])]). *)
Definition gstoreFdwRowIdMapSize_words (nrooms : Z) : Z :=
  if nrooms <=? 2 ^ 8 then 4
  else if nrooms <=? 2 ^ 16 then 4 + TYPEALIGN 256 nrooms / 64
  else if nrooms <=? 2 ^ 24 then 4 + Z.shiftl 4 8 + TYPEALIGN 256 nrooms / 64
  else 4 + Z.shiftl 4 8 + Z.shiftl 4 16 + TYPEALIGN 256 nrooms / 64.

(** [__builtin_ffsl]: one plus the index of the least significant set bit
    of a 64-bit word, 0 when there is none. *)
Fixpoint ffs_from (n : nat) (i : Z) (x : Z) : Z :=
  match n with
  | O => 0
  | S n' => if Z.testbit x i then i + 1 else ffs_from n' (i + 1) x
  end.
Definition __builtin_ffsl (x : Z) : Z := ffs_from 64 0 x.

(** [~x] on a 64-bit word. *)
Definition not64 (x : Z) : Z := u64 (Z.lnot x).

(** The [switch (depth)] of [__gstoreFdwAllocateRowId]: [None] is the
    [default:] branch, [Some next] the pointer to the next level, itself
    [None] for NULL. *)
Definition next_level (base nrooms depth : Z) : option (option Z) :=
  if depth =? 0 then Some (if 256 <? nrooms then Some (base + 4) else None)
  else if depth =? 1 then
    Some (if 65536 <? nrooms then Some (base + 4 + Z.shiftl 4 8) else None)
  else if depth =? 2 then
    Some (if 16777216 <? nrooms
          then Some (base + 4 + Z.shiftl 4 8 + Z.shiftl 4 16) else None)
  else if depth =? 3 then Some None
  else None.

Section Level.
(** One level of the search; [rec] is the recursive call on the next
    level ([m], [min_id], [offset]), [base] has been advanced by
    [4 * offset] already. *)
Variable rec : list Z -> Z -> Z -> option (list Z * Z * bool).
Variable next : option Z.
Variables base nrooms offset : Z.

(** The body of the [for] loop from the label [retry:] on.  [inl (m, rowid)]
    is the [break], [inr (m, min_id)] the end of the body (go on with
    [k + 1]).  Every jump back to [retry:] has set one more bit of [map]:
    64 jumps are the most a 64-bit word allows, the fuel stands for them. *)
Fixpoint retry (fuel : nat) (k map min_id : Z) (m : list Z)
  : option ((list Z * Z) + (list Z * Z)) :=
  match fuel with
  | O => None
  | S fuel' =>
    if map =? ULONG_MAX then Some (inr (m, min_id))
    else
      let pos := __builtin_ffsl (not64 map) - 1 in
      let bit := Z.shiftl 1 pos in
      let rowid := Z.lor pos (Z.lor (u32 (Z.shiftl offset 8)) (Z.shiftl k 6)) in
      match next with
      | None =>
          if rowid <? nrooms
          then Some (inl (wr m (base + k) (Z.lor (rd m (base + k)) bit), rowid))
          else Some (inl (m, UINT_MAX))
      | Some _ =>
          match rec m (u32 (Z.shiftl min_id 8)) rowid with
          | None => None
          | Some (m1, r, has_unused_rowids) =>
              let m2 := if has_unused_rowids then m1
                        else wr m1 (base + k) (Z.lor (rd m1 (base + k)) bit) in
              if r =? UINT_MAX then retry fuel' k (Z.lor map bit) 0 m2
              else Some (inl (m2, r))
          end
      end
  end.

(** [for (k = start; k < 4; k++, mask = 0)], with [n = 4 - k] rounds left. *)
Fixpoint for_k (n : nat) (k mask min_id : Z) (m : list Z) : option (list Z * Z) :=
  match n with
  | O => Some (m, UINT_MAX)
  | S n' =>
      match retry 65 k (Z.lor (rd m (base + k)) mask) min_id m with
      | None => None
      | Some (inl found) => Some found
      | Some (inr (m', min_id')) => for_k n' (k + 1) 0 min_id' m'
      end
  end.

End Level.

(** [__gstoreFdwAllocateRowId(base, nrooms, min_id, depth, offset,
    &has_unused_rowids)]; the result is the memory, the row-id and
    [has_unused_rowids].  [lv] bounds the depth of the recursion ([None]
    when it is used up); depth 3 never recurses, so 4 is enough. *)
Fixpoint __gstoreFdwAllocateRowId (lv : nat) (m : list Z)
    (base nrooms min_id depth offset : Z) : option (list Z * Z * bool) :=
  match lv with
  | O => None
  | S lv' =>
    let mask := Z.shiftl 1 (Z.land (Z.shiftr min_id 24) 63) - 1 in
    let start := Z.shiftr min_id 30 in
    if nrooms <=? u32 (Z.shiftl offset 8) then Some (m, UINT_MAX, false)
    else
      match next_level base nrooms depth with
      | None => Some (m, UINT_MAX, false)
      | Some next =>
          let base' := base + 4 * offset in
          let rec := fun m1 min1 off1 =>
            match next with
            | Some nx => __gstoreFdwAllocateRowId lv' m1 nx nrooms min1 (depth + 1) off1
            | None => None
            end in
          match for_k rec next base' nrooms offset
                      (Z.to_nat (4 - start)) start mask min_id m with
          | None => None
          | Some (m', rowid) =>
              let all := Z.land (Z.land (Z.land (rd m' base') (rd m' (base' + 1)))
                                        (rd m' (base' + 2))) (rd m' (base' + 3)) in
              Some (m', rowid, negb (all =? ULONG_MAX))
          end
      end
  end.

(** [gstoreFdwAllocateRowId]; the spin lock around the call serialises
    the callers and is not modelled. *)
Definition gstoreFdwAllocateRowId (m : list Z) (nrooms min_rowid : Z)
  : option (list Z * Z) :=
  if min_rowid <? nrooms then
    let min_id :=
      if nrooms <=? 2 ^ 8 then u32 (Z.shiftl min_rowid 24)
      else if nrooms <=? 2 ^ 16 then u32 (Z.shiftl min_rowid 16)
      else if nrooms <=? 2 ^ 24 then u32 (Z.shiftl min_rowid 8)
      else min_rowid in
    match __gstoreFdwAllocateRowId 4 m 0 nrooms min_id 0 0 with
    | Some (m', rowid, _) => Some (m', rowid)
    | None => None
    end
  else Some (m, UINT_MAX).

(** [base[i] &= ~(1UL << b)] and the test [(base[i] & (1UL << b)) == 0]. *)
Definition clear_bit (m : list Z) (i b : Z) : list Z :=
  wr m i (Z.land (rd m i) (not64 (Z.shiftl 1 b))).
Definition bit_is_clear (m : list Z) (i b : Z) : bool :=
  Z.land (rd m i) (Z.shiftl 1 b) =? 0.

(** [__gstoreFdwReleaseRowId]. *)
Definition __gstoreFdwReleaseRowId (m : list Z) (nrooms rowid : Z) : bool * list Z :=
  let lo := Z.land rowid 63 in
  if rowid <? nrooms then
    if nrooms <=? 2 ^ 8 then
      if bit_is_clear m (Z.shiftr rowid 6) lo then (false, m)
      else (true, clear_bit m (Z.shiftr rowid 6) lo)
    else if nrooms <=? 2 ^ 16 then
      if bit_is_clear m (4 + Z.shiftr rowid 6) lo then (false, m)
      else
        let m1 := clear_bit m (Z.shiftr rowid 14) (Z.land (Z.shiftr rowid 8) 63) in
        (true, clear_bit m1 (4 + Z.shiftr rowid 6) lo)
    else if nrooms <=? 2 ^ 24 then
      if bit_is_clear m (4 + 1024 + Z.shiftr rowid 6) lo then (false, m)
      else
        let m1 := clear_bit m (Z.shiftr rowid 22) (Z.land (Z.shiftr rowid 16) 63) in
        let m2 := clear_bit m1 (4 + Z.shiftr rowid 14) (Z.land (Z.shiftr rowid 8) 63) in
        (true, clear_bit m2 (4 + 1024 + Z.shiftr rowid 6) lo)
    else
      if bit_is_clear m (4 + 1024 + 262144 + Z.shiftr rowid 6) lo then (false, m)
      else
        let m1 := clear_bit m (Z.shiftr rowid 30) (Z.land (Z.shiftr rowid 24) 63) in
        let m2 := clear_bit m1 (4 + Z.shiftr rowid 22) (Z.land (Z.shiftr rowid 16) 63) in
        let m3 := clear_bit m2 (4 + 1024 + Z.shiftr rowid 14)
                            (Z.land (Z.shiftr rowid 8) 63) in
        (true, clear_bit m3 (4 + 1024 + 262144 + Z.shiftr rowid 6) lo)
  else (false, m).

(** [gstoreFdwReleaseRowId] drops the boolean. *)
Definition gstoreFdwReleaseRowId (m : list Z) (nrooms rowid : Z) : list Z :=
  snd (__gstoreFdwReleaseRowId m nrooms rowid).

End RowIdMap.
Export RowIdMap.


(** ** The primary-key hash index *)

Module HashIndex.

(** [GpuStoreHashIndexHead]: [slots] holds the [nslots] chain heads
    followed by the [nrooms] "next" entries ([rowmap = &slots[nslots]]). *)
Record GpuStoreHashIndexHead := {
  hi_nrooms : Z;
  hi_nslots : Z;
  slots : list Z
}.

(** How a call of [lookupGpuStorePrimaryKey] ends. *)
Inductive lookup_end :=
| Returns (rowid : Z)       (* [return rowid] *)
| Spins                     (* the function never leaves its last loop *)
| OutOfBounds               (* an array was read outside its bounds *)
| OutOfFuel.                (* the model gave up walking the chain *)

(** An array read; [None] outside the array. *)
Definition array_get (a : list Z) (i : Z) : option Z :=
  if i <? 0 then None else a !! Z.to_nat i.

Section Lookup.
(** The type cache entry of the key column: its hash function and its
    equality operator. *)
Variable hash_proc : Datum -> Z.
Variable eq_opr : Datum -> Datum -> bool.
Variable hash_index : GpuStoreHashIndexHead.
Variable kds : kern_data_store.
Variable primary_key : Z.

Definition rowmap_get (i : Z) : option Z :=
  array_get (slots hash_index) (hi_nslots hash_index + i).

(** The first [while] loop; [inl r] is the value of [rowid] when the loop
    is left. *)
Fixpoint walk_chain (fuel : nat) (key_value : Datum) (rowid : Z) : Z + lookup_end :=
  match fuel with
  | O => inr OutOfFuel
  | S fuel' =>
    if rowid =? UINT_MAX then inl rowid
    else if hi_nrooms hash_index <=? rowid then inl UINT_MAX
    else if negb ((0 <=? rowid) && (rowid <? nrooms kds)) then inr OutOfBounds
    else
      let next :=
        match rowmap_get rowid with
        | None => inr OutOfBounds
        | Some r => walk_chain fuel' key_value r
        end in
      match KDS_fetch_datum_column kds (primary_key - 1) rowid with
      | Some datum => if eq_opr key_value datum then inl rowid else next
      | None => next
      end
  end.

(** Where the walk starts: the head of the bucket, or the entry behind
    the row-id returned last. *)
Definition chain_start (key_value : Datum) (last_rowid : Z) : option Z :=
  let hash := hash_proc key_value in
  let hindex := hash mod hi_nslots hash_index in
  if last_rowid =? UINT_MAX then array_get (slots hash_index) hindex
  else if last_rowid <? hi_nrooms hash_index then rowmap_get last_rowid
  else Some UINT_MAX.

(** [lookupGpuStorePrimaryKey].  After the first loop the source has a
    second statement [while (rowid != UINT_MAX);] with an empty body. *)
Definition lookupGpuStorePrimaryKey (fuel : nat) (key_value : Datum) (last_rowid : Z)
  : lookup_end :=
  match chain_start key_value last_rowid with
  | None => OutOfBounds
  | Some rowid0 =>
      match walk_chain fuel key_value rowid0 with
      | inr e => e
      | inl rowid => if rowid =? UINT_MAX then Returns rowid else Spins
      end
  end.

End Lookup.

End HashIndex.
Export HashIndex.

(** ** REDO log records *)

Module TxLog.

(** The tag of a record.  [GSTORE_TX_LOG__other] is any other 32-bit
    value found where a tag is expected. *)
Inductive log_type :=
| GSTORE_TX_LOG__INSERT
| GSTORE_TX_LOG__UPDATE
| GSTORE_TX_LOG__DELETE
| GSTORE_TX_LOG__COMMIT
| GSTORE_TX_LOG__other (code : Z).

(** The bytes of a 32-bit, a 64-bit and a 16-bit word, lowest first. *)
Definition le32 (z : Z) : list Z :=
  [Z.land z 255; Z.land (Z.shiftr z 8) 255; Z.land (Z.shiftr z 16) 255;
   Z.land (Z.shiftr z 24) 255].
Definition le64 (z : Z) : list Z := le32 z ++ le32 (Z.shiftr z 32).
Definition le16 (z : Z) : list Z := [Z.land z 255; Z.land (Z.shiftr z 8) 255].

(** postgres.h, for a little-endian machine: [SET_VARSIZE] stores
    [((uint32) len) << 2] as the header word of a varlena, [VARSIZE] reads
    [(header >> 2) & 0x3FFFFFFF]. *)
Definition SET_VARSIZE (len : Z) : Z := u32 (Z.shiftl len 2).
Definition VARSIZE (header : Z) : Z := Z.land (Z.shiftr header 2) 1073741823.

(** [HeapTupleHeaderData] (htup_details.h).  The union [t_choice] is
    three 32-bit words: read as [t_heap] they are [t_xmin], [t_xmax] and
    [t_field3.t_cid], read as [t_datum] the same words are [datum_len_],
    [datum_typmod] and [datum_typeid].  [bi_hi] and [bi_lo] are the block
    number of [t_ctid]; [t_values] are the attributes as
    [heap_deform_tuple] returns them ([None] for NULL). *)
Record HeapTupleHeaderData := {
  t_xmin : TransactionId;
  t_xmax : TransactionId;
  t_cid : CommandId;
  bi_hi : Z;
  bi_lo : Z;
  t_values : list (option Datum)
}.

(** [HeapTupleHeaderGetDatumLength(tup)] is [VARSIZE(tup)]: it reads the
    first word of [t_choice]. *)
Definition HeapTupleHeaderGetDatumLength (tup : HeapTupleHeaderData) : Z :=
  VARSIZE (t_xmin tup).

(** [HeapTupleData]: [t_len], and [t_data] with the [t_len] bytes it
    points to. *)
Record HeapTupleData := {
  t_len : Z;
  t_data : HeapTupleHeaderData;
  t_bytes : list Z
}.

(** [GstoreTxLogRow] as the mapping of the log shows it: the fields, and
    [image], the bytes of the mapping from the first byte of the record
    on, as far as they are given (the log file is zero-filled: a byte
    behind the list reads as 0). *)
Record GstoreTxLogRow := {
  type : log_type;
  length : Z;
  timestamp : Z;
  rowid : Z;
  xid : TransactionId;
  htup : HeapTupleHeaderData;
  image : list Z
}.

(** [update_mask] of [__ApplyRedoLogUpdate]:
    [(char * )r_log + HeapTupleHeaderGetDatumLength(&r_log->htup)]. *)
Definition update_mask (r_log : GstoreTxLogRow) : list Z :=
  drop (Z.to_nat (HeapTupleHeaderGetDatumLength (htup r_log))) (image r_log).

Definition zero_htup : HeapTupleHeaderData :=
  {| t_xmin := 0; t_xmax := 0; t_cid := 0; bi_hi := 0; bi_lo := 0;
     t_values := [] |}.

(** What zero-filled log space reads as. *)
Definition zero_record : GstoreTxLogRow :=
  {| type := GSTORE_TX_LOG__other 0; length := 0; timestamp := 0; rowid := 0;
     xid := 0; htup := zero_htup; image := [] |}.

(** [GpuStoreRedoLogHead] with what follows it in the file: [data] maps
    the file offset of a record to the record. *)
Record GpuStoreRedoLogHead := {
  signature : string;
  head_timestamp : Z;
  checkpoint_offset : Z;
  data : gmap Z GstoreTxLogRow
}.

Definition GPUSTORE_REDOLOG_SIGNATURE : string := "@REDO-1@".

(** [MAXALIGN(offsetof(GpuStoreRedoLogHead, data))]: three 8-byte fields. *)
Definition redo_head_sz : Z := MAXALIGN 24.

Definition record_at (redo_mmap : GpuStoreRedoLogHead) (pos : Z) : GstoreTxLogRow :=
  default zero_record (data redo_mmap !! pos).

End TxLog.

(** ** Writing the REDO log *)

Module RedoLog.
Import TxLog.

(** A file of the file system: its size and, read as a REDO log, its
    header and records. *)
Record file := {
  f_size : Z;
  f_content : GpuStoreRedoLogHead
}.

(** Directory entries name inodes; a mapping of a file follows the
    inode, not the name. *)
Record filesystem := {
  dir : gmap string nat;
  inodes : gmap nat file
}.

Inductive LWLockMode := LW_EXCLUSIVE | LW_SHARED.

(** The fields of [GpuStoreSharedState] the log writer uses;
    [redo_mmap_lock] is the mode in which this backend holds the lock. *)
Record GpuStoreSharedState := {
  redo_log_file : string;
  redo_log_limit : Z;
  redo_mmap_revision : Z;
  redo_log_pos : Z;
  redo_mmap_lock : option LWLockMode
}.

(** The fields of [GpuStoreDesc] for the log mapping: the mapped inode
    (NULL when unmapped) and the revision it was mapped at. *)
Record GpuStoreDesc := {
  redo_mmap : option nat;
  desc_redo_mmap_revision : Z
}.

(** The calls the writer makes on the lock and on the file system: the
    [open(O_CREAT | O_EXCL)] that succeeds, the two [rename]s, the
    [unlink] of the error path, and the [memcpy] of the record into the
    mapping of an inode. *)
Inductive call :=
| call_LWLockAcquire (mode : LWLockMode)
| call_LWLockRelease
| call_open (path : string)
| call_rename (oldpath newpath : string)
| call_unlink (path : string)
| call_memcpy (ino : nat) (pos : Z).

(** The writer's world; [rng] counts the calls of [random()], [history]
    lists the calls made, the oldest first, each with the mode in which
    [redo_mmap_lock] was held when it was made. *)
Record world := {
  fs : filesystem;
  gs_sstate : GpuStoreSharedState;
  gs_desc : GpuStoreDesc;
  rng : nat;
  history : list (option LWLockMode * call)
}.

(** A call returns, or leaves by [elog(ERROR, ...)] in the state it has
    reached, or writes or reads outside an object ([Fault]), or the model
    has run out of fuel. *)
Inductive outcome :=
| Ok (w : world)
| Elog (msg : string) (w : world)
| Fault (what : string)
| NoFuel.

Definition set_lock (mode : option LWLockMode) (ss : GpuStoreSharedState)
  : GpuStoreSharedState :=
  {| redo_log_file := redo_log_file ss; redo_log_limit := redo_log_limit ss;
     redo_mmap_revision := redo_mmap_revision ss; redo_log_pos := redo_log_pos ss;
     redo_mmap_lock := mode |}.

Definition set_pos (pos : Z) (ss : GpuStoreSharedState) : GpuStoreSharedState :=
  {| redo_log_file := redo_log_file ss; redo_log_limit := redo_log_limit ss;
     redo_mmap_revision := redo_mmap_revision ss; redo_log_pos := pos;
     redo_mmap_lock := redo_mmap_lock ss |}.

Definition set_revision (rev : Z) (ss : GpuStoreSharedState) : GpuStoreSharedState :=
  {| redo_log_file := redo_log_file ss; redo_log_limit := redo_log_limit ss;
     redo_mmap_revision := rev; redo_log_pos := redo_log_pos ss;
     redo_mmap_lock := redo_mmap_lock ss |}.

(** A call enters the history with the lock mode of the moment. *)
Definition made (c : call) (w : world) : world :=
  {| fs := fs w; gs_sstate := gs_sstate w; gs_desc := gs_desc w; rng := rng w;
     history := history w ++ [(redo_mmap_lock (gs_sstate w), c)] |}.

(** [LWLockAcquire(&gs_sstate->redo_mmap_lock, mode)] and
    [LWLockRelease(&gs_sstate->redo_mmap_lock)], for a backend that runs
    alone. *)
Definition LWLockAcquire (mode : LWLockMode) (w : world) : world :=
  let w1 := made (call_LWLockAcquire mode) w in
  {| fs := fs w1; gs_sstate := set_lock (Some mode) (gs_sstate w1);
     gs_desc := gs_desc w1; rng := rng w1; history := history w1 |}.

Definition LWLockRelease (w : world) : world :=
  let w1 := made call_LWLockRelease w in
  {| fs := fs w1; gs_sstate := set_lock None (gs_sstate w1);
     gs_desc := gs_desc w1; rng := rng w1; history := history w1 |}.

Definition newfile_path (log : string) (r : Z) : string :=
  log +:+ ".newfile." +:+ pretty r.
Definition oldfile_path (log : string) (r : Z) : string :=
  log +:+ ".oldfile." +:+ pretty r.

(** [memcpy((char * )redo_mmap + pos, r_log, r_len)] on the mapped inode. *)
Definition write_record (f : file) (pos : Z) (r_log : GstoreTxLogRow) : file :=
  {| f_size := f_size f;
     f_content :=
       {| signature := signature (f_content f);
          head_timestamp := head_timestamp (f_content f);
          checkpoint_offset := checkpoint_offset (f_content f);
          data := <[pos := r_log]> (data (f_content f)) |} |}.

Section Writer.
(** [random()] by the number of the call, and [GetCurrentTimestamp()]. *)
Variable random : nat -> Z.
Variable GetCurrentTimestamp : Z.
(** [offsetof(GstoreTxLogRow, htup)], and the bytes of the fields in
    front of [htup] ([type], [length], [timestamp], [rowid], [xid]) as the
    struct lays them out; the struct is declared outside this file. *)
Variable offsetof_htup : Z.
Variable head_bytes : log_type -> Z -> Z -> Z -> TransactionId -> list Z.
(** [tupdesc->tdtypeid] and [tupdesc->tdtypmod] of the relation. *)
Variable tdtypeid : Z.
Variable tdtypmod : Z.

(** Loops of the shape [do { r = random(); } while (!ok(r))]. *)
Fixpoint draw_until (fuel : nat) (ok : Z -> bool) (n : nat) : option (Z * nat) :=
  match fuel with
  | O => None
  | S fuel' =>
      if ok (random n) then Some (random n, S n) else draw_until fuel' ok (S n)
  end.

Definition draw_fuel : nat := 64.

(** [__gstoreFdwRemapRedoLog]. *)
Definition __gstoreFdwRemapRedoLog (w : world) : outcome :=
  match dir (fs w) !! redo_log_file (gs_sstate w) with
  | None =>
      Elog "failed on pmem_map_file"
           {| fs := fs w; gs_sstate := gs_sstate w;
              gs_desc := {| redo_mmap := None;
                            desc_redo_mmap_revision :=
                              desc_redo_mmap_revision (gs_desc w) |};
              rng := rng w; history := history w |}
  | Some ino =>
      Ok {| fs := fs w; gs_sstate := gs_sstate w;
            gs_desc := {| redo_mmap := Some ino;
                          desc_redo_mmap_revision :=
                            redo_mmap_revision (gs_sstate w) |};
            rng := rng w; history := history w |}
  end.

(** [__gstoreFdwSwitchRedoLog]. *)
Definition __gstoreFdwSwitchRedoLog (w : world) : outcome :=
  let ss := gs_sstate w in
  let log := redo_log_file ss in
  (* create a new Redo-Log file and allocate blocks *)
  match draw_until draw_fuel
          (fun r => bool_decide (dir (fs w) !! newfile_path log r = None)) (rng w) with
  | None => NoFuel
  | Some (r1, rng1) =>
    let tmp_path := newfile_path log r1 in
    let rawfd := fresh (dom (inodes (fs w))) in
    let sz := redo_head_sz in
    let r_head := {| signature := GPUSTORE_REDOLOG_SIGNATURE;
                     head_timestamp := GetCurrentTimestamp;
                     checkpoint_offset := sz;
                     data := ∅ |} in
    let newfile := {| f_size := Z.max sz (redo_log_limit ss); f_content := r_head |} in
    let dir1 := <[tmp_path := rawfd]> (dir (fs w)) in
    let inodes1 := <[rawfd := newfile]> (inodes (fs w)) in
    let w1 := made (call_open tmp_path) w in
    (* unmap old redo-log file once *)
    let desc1 := {| redo_mmap := None;
                    desc_redo_mmap_revision := desc_redo_mmap_revision (gs_desc w) |} in
    (* rename the old Redo-Log file *)
    match draw_until draw_fuel
            (fun r => bool_decide (dir1 !! oldfile_path log r = None)) rng1 with
    | None => NoFuel
    | Some (r2, rng2) =>
      let old_path := oldfile_path log r2 in
      match dir1 !! log with
      | None =>
          (* rename() fails; PG_CATCH: close(rawfd); unlink(tmp_path) *)
          Elog "failed on rename"
               {| fs := {| dir := delete tmp_path dir1; inodes := inodes1 |};
                  gs_sstate := ss; gs_desc := desc1; rng := rng2;
                  history := history (made (call_unlink tmp_path) w1) |}
      | Some oldino =>
        let dir2 := <[old_path := oldino]> (delete log dir1) in
        let w2 := made (call_rename log old_path) w1 in
        (* and, rename the new Redo-Log file *)
        let dir3 := <[log := rawfd]> (delete tmp_path dir2) in
        let w3 := made (call_rename tmp_path log) w2 in
        (* update shared state for the new Redo-Log file *)
        match draw_until draw_fuel
                (fun r => negb (r =? UINT_MAX) && negb (r =? redo_mmap_revision ss))
                rng2 with
        | None => NoFuel
        | Some (revision, rng3) =>
            Ok {| fs := {| dir := dir3; inodes := inodes1 |};
                  gs_sstate := set_pos sz (set_revision revision ss);
                  gs_desc := desc1; rng := rng3; history := history w3 |}
        end
      end
    end
  end.

(** [r_len] of [gstoreFdwAppendRedoLog]; [offsetof(Bitmapset,
    words[nwords])] is [8 + 8 * nwords] ([bitmapword] has 64 bits). *)
Definition r_len_of (tuple : HeapTupleData) (updatedCols : option (list Z)) : Z :=
  MAXALIGN (offsetof_htup + t_len tuple +
            match updatedCols with
            | Some words => 8 + 8 * Z.of_nat (List.length words)
            | None => 0
            end).

(** The first part of [gstoreFdwAppendRedoLog]: the record in the buffer
    [r_log] of [r_len] bytes.  After the [memcpy] of the tuple the three
    words of [t_choice] are overwritten by
    [HeapTupleHeaderSetDatumLength], [HeapTupleHeaderSetTypMod] and
    [HeapTupleHeaderSetTypeId] (a heap tuple is at least as long as its
    header, so the three words lie inside the copy).  For an UPDATE,
    [BITS_PER_BITMAPWORD * nwords] = [64 * nwords] bytes are copied from
    [updatedCols->words] to the place behind the tuple: [inr] when
    [updatedCols] is NULL, and when the copy is longer than what is left
    of [r_log] behind the tuple, which it is as soon as there is a word
    (the copy is eight times as long as the words are). *)
Definition setup_GstoreTxLogRow (log_type : TxLog.log_type) (rowid : Z)
    (xid : TransactionId) (tuple : HeapTupleData)
    (updatedCols : option (list Z)) : GstoreTxLogRow + string :=
  let r_len := r_len_of tuple updatedCols in
  let header :=
    {| t_xmin := SET_VARSIZE (t_len tuple);
       t_xmax := u32 tdtypmod;
       t_cid := u32 tdtypeid;
       bi_hi := bi_hi (t_data tuple);
       bi_lo := bi_lo (t_data tuple);
       t_values := t_values (t_data tuple) |} in
  let copied :=
    le32 (t_xmin header) ++ le32 (t_xmax header) ++ le32 (t_cid header)
    ++ drop 12 (t_bytes tuple) in
  let room := r_len - (offsetof_htup + t_len tuple) in
  let record (behind : list Z) :=
    {| type := log_type; length := r_len; timestamp := GetCurrentTimestamp;
       rowid := rowid; xid := xid; htup := header;
       image := head_bytes log_type r_len GetCurrentTimestamp rowid xid
                ++ copied ++ behind |} in
  match log_type with
  | GSTORE_TX_LOG__UPDATE =>
      match updatedCols with
      | None => inr "updatedCols is NULL"
      | Some words =>
          let n := 64 * Z.of_nat (List.length words) in
          if n <=? room
          then inl (record (take (Z.to_nat n) (flat_map le64 words)))
          else inr "memcpy past the end of r_log"
      end
  | _ => inl (record [])
  end.

(** The second part, from the label [retry:] on: every round follows a
    [goto retry].  The backend runs alone: the compare-and-swap on
    [redo_log_pos] succeeds at once. *)
Fixpoint append_retry (fuel : nat) (has_exclusive_lock : bool)
    (r_log : GstoreTxLogRow) (w : world) : outcome :=
  match fuel with
  | O => NoFuel
  | S fuel' =>
    (* remap redo-log buffer, if it it not the latest one *)
    let remapped :=
      if bool_decide (redo_mmap (gs_desc w) = None)
         || negb (desc_redo_mmap_revision (gs_desc w)
                  =? redo_mmap_revision (gs_sstate w))
      then __gstoreFdwRemapRedoLog w else Ok w in
    match remapped with
    | Ok w1 =>
      let old_pos := redo_log_pos (gs_sstate w1) in
      let new_pos := old_pos + length r_log in
      if redo_log_limit (gs_sstate w1) <? new_pos then
        (* switch redo-log buffer, if log size exceeds the limit *)
        if has_exclusive_lock then
          match __gstoreFdwSwitchRedoLog w1 with
          | Ok w2 => append_retry fuel' has_exclusive_lock r_log w2
          | Elog msg w2 => Elog msg w2
          | Fault what => Fault what
          | NoFuel => NoFuel
          end
        else
          append_retry fuel' true r_log (LWLockAcquire LW_EXCLUSIVE (LWLockRelease w1))
      else
        match redo_mmap (gs_desc w1) with
        | None => Fault "redo_mmap is NULL"
        | Some ino =>
            let inodes' :=
              match inodes (fs w1) !! ino with
              | Some f => <[ino := write_record f old_pos r_log]> (inodes (fs w1))
              | None => inodes (fs w1)
              end in
            Ok (LWLockRelease
                  (made (call_memcpy ino old_pos)
                     {| fs := {| dir := dir (fs w1); inodes := inodes' |};
                        gs_sstate := set_pos new_pos (gs_sstate w1);
                        gs_desc := gs_desc w1; rng := rng w1;
                        history := history w1 |}))
        end
    | Elog msg w1 => Elog msg w1
    | Fault what => Fault what
    | NoFuel => NoFuel
    end
  end.

(** [gstoreFdwAppendRedoLog]. *)
Definition gstoreFdwAppendRedoLog (fuel : nat) (w : world)
    (log_type : TxLog.log_type) (rowid : Z) (xid : TransactionId)
    (tuple : HeapTupleData) (updatedCols : option (list Z)) : outcome :=
  match setup_GstoreTxLogRow log_type rowid xid tuple updatedCols with
  | inr what => Fault what
  | inl r_log => append_retry fuel false r_log (LWLockAcquire LW_SHARED w)
  end.

End Writer.

End RedoLog.

(** ** The base file *)

Module BaseFile.

(** [GpuStoreRowIdMapHead]. *)
Record GpuStoreRowIdMapHead := {
  rowid_map_nrooms : Z;
  rowid_map_base : list Z
}.

Definition GPUSTORE_BASEFILE_SIGNATURE : string := "@BASE-1@".
Definition GPUSTORE_BASEFILE_MAPPED_SIGNATURE : string := "%Base-1%".

(** The mapped base file: [GpuStoreBaseFileHead] with its sections;
    [base_mmap_sz] is the size of the file. *)
Record GpuStoreBaseFileHead := {
  base_signature : string;
  schema : kern_data_store;
  rowid_map : GpuStoreRowIdMapHead;
  hash_index : option GpuStoreHashIndexHead;
  base_mmap_sz : Z
}.

(** [offsetof(GpuStoreBaseFileHead, schema)]: the signature, two offsets
    and the table name of [NAMEDATALEN] bytes. *)
Definition offsetof_schema : Z := 8 + 8 + 8 + 64.

Definition set_schema (b : GpuStoreBaseFileHead) (kds : kern_data_store)
  : GpuStoreBaseFileHead :=
  {| base_signature := base_signature b; schema := kds; rowid_map := rowid_map b;
     hash_index := hash_index b; base_mmap_sz := base_mmap_sz b |}.

Definition set_rowid_map_base (b : GpuStoreBaseFileHead) (m : list Z)
  : GpuStoreBaseFileHead :=
  {| base_signature := base_signature b; schema := schema b;
     rowid_map := {| rowid_map_nrooms := rowid_map_nrooms (rowid_map b);
                     rowid_map_base := m |};
     hash_index := hash_index b; base_mmap_sz := base_mmap_sz b |}.

(** The signature test of [gstoreFdwValidateBaseFile]: [Some true] for a
    base file that was closed in order, [Some false] for one that was
    left mapped, [None] for the error "wrong signature". *)
Definition basefile_is_sanity (b : GpuStoreBaseFileHead) : option bool :=
  if String.eqb (base_signature b) GPUSTORE_BASEFILE_SIGNATURE then Some true
  else if String.eqb (base_signature b) GPUSTORE_BASEFILE_MAPPED_SIGNATURE
       then Some false
  else None.

End BaseFile.
Export BaseFile.

(** ** Replaying the REDO log *)

Module Replay.
Import TxLog.

(** How a replay ends: it returns the position it has reached, or leaves
    by [elog(ERROR, ...)], or the model has run out of fuel. *)
Inductive replay_end :=
| Replayed (base_mmap : GpuStoreBaseFileHead) (redo_pos : Z)
| ReplayElog (msg : string)
| ReplayNoFuel.

(** Modelled from the spec: [KDS_fetch_datum_column] is not part of this
    file.  "An implicit trailing system column carries {xmin, xmax, cid}
    per row": the fetch of the system column returns the entry of the row,
    zeros for a row never stored.  [gstoreFdwDeviceTupleDesc] declares
    the column [attnotnull] and [gstoreFdwCreateBaseFile] gives such a
    column no null map, so the fetch never reports NULL ([None]). *)
Definition KDS_fetch_sysattr (kds : kern_data_store) (rowid : Z)
  : option GstoreFdwSysattr :=
  Some (sysattr_at kds rowid).

Section Apply.
Variable VARSIZE_ANY : Datum -> Z.
(** [offsetof(GstoreTxLogCommon, data)] and [offsetof(GstoreTxLogRow, htup)]. *)
Variable offsetof_data : Z.
Variable offsetof_htup : Z.
(** The calls of an expansion of the extra buffer to [sz] bytes
    ([pmem_unmap], [open], [posix_fallocate], [pmem_map_file]): the
    message of the first that fails, [None] when all succeed.  It depends
    on the file system only. *)
Variable expansion_fails : Z -> option string.

Definition natts (kds : kern_data_store) : Z := Z.of_nat (List.length (colmeta kds)).

(** [values[j]], [isnull[j]] after [heap_deform_tuple]. *)
Definition deformed (tup : HeapTupleHeaderData) (j : Z) : option Datum :=
  mjoin (t_values tup !! Z.to_nat j).

(** [__ApplyRedoLogInsert]. *)
Definition __ApplyRedoLogInsert (kds : kern_data_store) (r_log : GstoreTxLogRow)
  : kern_data_store :=
  let kds1 :=
    fold_left (fun k j =>
                 KDS_store_datum_column VARSIZE_ANY k j (rowid r_log)
                                        (deformed (htup r_log) j))
              (seqZ 0 (natts kds)) kds in
  set_sysattr kds1 (rowid r_log)
    {| xmin := t_xmin (htup r_log); xmax := InvalidTransactionId;
       cid := t_cid (htup r_log) |}.

(** [(update_mask[j>>3] & (1<<(j&7))) != 0]. *)
Definition mask_bit (mask : list Z) (j : Z) : bool :=
  negb (Z.land (default 0 (mask !! Z.to_nat (Z.shiftr j 3)))
               (Z.shiftl 1 (Z.land j 7)) =? 0).

Definition is_update (t : log_type) : bool :=
  match t with GSTORE_TX_LOG__UPDATE => true | _ => false end.

(** [__ApplyRedoLogUpdate]; [inr] is the [elog(ERROR, ...)]. *)
Definition __ApplyRedoLogUpdate (kds : kern_data_store) (r_log : GstoreTxLogRow)
  : kern_data_store + string :=
  let oldid := Z.lor (Z.shiftl (bi_hi (htup r_log)) 16) (bi_lo (htup r_log)) in
  let kds1 :=
    fold_left (fun k j =>
                 let datum :=
                   if is_update (type r_log) && mask_bit (update_mask r_log) j
                   then KDS_fetch_datum_column k j oldid
                   else deformed (htup r_log) j in
                 KDS_store_datum_column VARSIZE_ANY k j (rowid r_log) datum)
              (seqZ 0 (natts kds)) kds in
  (* old xmax & cid *)
  match KDS_fetch_sysattr kds1 (rowid r_log) with
  | None => inr "Bug? system column is missing"
  | Some oldattr =>
    let kds2 :=
      set_sysattr kds1 (rowid r_log)
        (set_cid (t_cid (htup r_log)) (set_xmax (t_xmin (htup r_log)) oldattr)) in
    (* new xmin & cid *)
    match KDS_fetch_sysattr kds2 oldid with
    | None => inr "Bug? system column is missing"
    | Some sysattr =>
        inl (set_sysattr kds2 oldid
               (set_cid (t_cid (htup r_log))
                  (set_xmin (t_xmin (htup r_log)) sysattr)))
    end
  end.

(** [__ApplyRedoLogDelete]: the result of the fetch is not tested. *)
Definition __ApplyRedoLogDelete (kds : kern_data_store) (r_log : GstoreTxLogRow)
  : kern_data_store :=
  set_sysattr kds (rowid r_log)
    (set_cid (t_cid (htup r_log))
       (set_xmax (t_xmax (htup r_log)) (sysattr_at kds (rowid r_log)))).

(** [__rebuildRowIdMap] and [__rebuildHashIndex]: both bodies are a
    comment ("TODO"). *)
Definition __rebuildRowIdMap (base_mmap : GpuStoreBaseFileHead) : GpuStoreBaseFileHead :=
  base_mmap.
Definition __rebuildHashIndex (base_mmap : GpuStoreBaseFileHead) : GpuStoreBaseFileHead :=
  base_mmap.

(** "expand the extra buffer on demand": unmap, [posix_fallocate(rawfd, 0,
    sz)] with [sz = PAGE_ALIGN(sz + (64UL << 20))] in [size_t] (a file
    that is longer keeps its size), map again, adjust [extra_hlength];
    [inr] is the [elog(ERROR, ...)] of a call that fails. *)
Definition expand_extra_buffer (base_mmap : GpuStoreBaseFileHead) (sz : Z)
  : GpuStoreBaseFileHead + string :=
  let sz' := u64 (PAGE_ALIGN (u64 (sz + Z.shiftl 64 20))) in
  match expansion_fails sz' with
  | Some msg => inr msg
  | None =>
      let file_sz := Z.max (base_mmap_sz base_mmap) sz' in
      inl {| base_signature := base_signature base_mmap;
             schema := set_extra_hlength (schema base_mmap)
                         (u64 (file_sz - (offsetof_schema
                                          + extra_hoffset (schema base_mmap))));
             rowid_map := rowid_map base_mmap;
             hash_index := hash_index base_mmap;
             base_mmap_sz := file_sz |}
  end.

(** The body of the [while] loop of [__ApplyRedoLogMain] for a record
    whose type it has found to be INSERT, UPDATE or DELETE; the
    arithmetic on [sz] is that of [size_t]. *)
Definition apply_row_log (base_mmap : GpuStoreBaseFileHead) (r_log : GstoreTxLogRow)
  : GpuStoreBaseFileHead + string :=
  let expanded :=
    if has_varlena (schema base_mmap)
       && match type r_log with
          | GSTORE_TX_LOG__INSERT | GSTORE_TX_LOG__UPDATE => true
          | _ => false
          end
    then
      let sz := u64 (length r_log - offsetof_htup) in
      let sz := u64 (sz + usage (schema base_mmap)) in
      if extra_hlength (schema base_mmap) <? sz
      then expand_extra_buffer base_mmap sz else inl base_mmap
    else inl base_mmap in
  match expanded with
  | inr msg => inr msg
  | inl base1 =>
    match type r_log with
    | GSTORE_TX_LOG__INSERT =>
        inl (set_schema base1 (__ApplyRedoLogInsert (schema base1) r_log))
    | GSTORE_TX_LOG__UPDATE =>
        match __ApplyRedoLogUpdate (schema base1) r_log with
        | inl kds => inl (set_schema base1 kds)
        | inr msg => inr msg
        end
    | GSTORE_TX_LOG__DELETE =>
        inl (set_schema base1 (__ApplyRedoLogDelete (schema base1) r_log))
    | _ => inr "Bug? unexpected Redo-Log type"
    end
  end.

(** The [while] loop of [__ApplyRedoLogMain]; one unit of fuel per
    record. *)
Fixpoint redo_loop (fuel : nat) (redo_mmap : GpuStoreRedoLogHead) (redo_mmap_sz : Z)
    (base_mmap : GpuStoreBaseFileHead) (redo_pos : Z) : replay_end :=
  match fuel with
  | O => ReplayNoFuel
  | S fuel' =>
    if redo_pos + offsetof_data <? redo_mmap_sz then
      let tx_log := record_at redo_mmap redo_pos in
      match type tx_log with
      | GSTORE_TX_LOG__INSERT | GSTORE_TX_LOG__UPDATE | GSTORE_TX_LOG__DELETE =>
          match apply_row_log base_mmap tx_log with
          | inl base1 =>
              redo_loop fuel' redo_mmap redo_mmap_sz base1 (redo_pos + length tx_log)
          | inr msg => ReplayElog msg
          end
      | GSTORE_TX_LOG__COMMIT =>
          (* commit log can be ignored on CPU side *)
          redo_loop fuel' redo_mmap redo_mmap_sz base_mmap (redo_pos + length tx_log)
      | GSTORE_TX_LOG__other _ =>
          (* end of the REDO log *)
          Replayed base_mmap redo_pos
      end
    else Replayed base_mmap redo_pos
  end.

(** [__ApplyRedoLogMain], from the point where the base file is mapped. *)
Definition __ApplyRedoLogMain (fuel : nat) (base_mmap : GpuStoreBaseFileHead)
    (redo_mmap : GpuStoreRedoLogHead) (redo_mmap_sz : Z) : replay_end :=
  match redo_loop fuel redo_mmap redo_mmap_sz base_mmap
                  (checkpoint_offset redo_mmap) with
  | Replayed b redo_pos =>
      Replayed (__rebuildHashIndex (__rebuildRowIdMap b)) redo_pos
  | ReplayElog msg => ReplayElog msg
  | ReplayNoFuel => ReplayNoFuel
  end.

(** The loop of [gstoreFdwApplyRedoLog] for a base file in order: "No
    need to apply REDO-log, just seek to the position". *)
Fixpoint seek_loop (fuel : nat) (redo_mmap : GpuStoreRedoLogHead) (redo_mmap_sz : Z)
    (redo_pos : Z) : option Z :=
  match fuel with
  | O => None
  | S fuel' =>
    if redo_pos + offsetof_data <? redo_mmap_sz then
      let tx_log := record_at redo_mmap redo_pos in
      match type tx_log with
      | GSTORE_TX_LOG__other _ => Some redo_pos
      | _ => seek_loop fuel' redo_mmap redo_mmap_sz (redo_pos + length tx_log)
      end
    else Some redo_pos
  end.

(** [gstoreFdwApplyRedoLog], from the point where the log is mapped. *)
Definition gstoreFdwApplyRedoLog (fuel : nat) (base_mmap : GpuStoreBaseFileHead)
    (redo_mmap : GpuStoreRedoLogHead) (redo_mmap_sz : Z) (basefile_is_sanity : bool)
  : replay_end :=
  if negb basefile_is_sanity then
    __ApplyRedoLogMain fuel base_mmap redo_mmap redo_mmap_sz
  else
    match seek_loop fuel redo_mmap redo_mmap_sz (checkpoint_offset redo_mmap) with
    | None => ReplayNoFuel
    | Some redo_pos => Replayed base_mmap redo_pos
    end.

End Apply.

End Replay.
Export Replay.

(** ** Inserting a row *)

Module Insert.
Import TxLog RedoLog.

(** What an insertion works on: the mapped base file and the world of
    the log writer. *)
Record store := {
  base_mmap : GpuStoreBaseFileHead;
  redo : world
}.

Inductive insert_end :=
| Inserted (rowid : Z) (next_rowid : Z) (st : store)
| InsertElog (msg : string) (st : store)
| InsertFault (what : string)
| InsertNoFuel.

Section ExecInsert.
Variable env : XactEnv.
Variable VARSIZE_ANY : Datum -> Z.
Variable random : nat -> Z.
Variable GetCurrentTimestamp : Z.
Variable offsetof_htup : Z.
Variable head_bytes : log_type -> Z -> Z -> Z -> TransactionId -> list Z.
Variable tdtypeid : Z.
Variable tdtypmod : Z.
(** [GetCurrentTransactionId()] and [GetCurrentCommandId(true)]. *)
Variable GetCurrentTransactionId : TransactionId.
Variable GetCurrentCommandId : CommandId.

(** The loop "new RowId allocation": [inl] is the [break] with the row-id
    and the new [next_rowid], [inr] the way the function ends there. *)
Fixpoint allocate_loop (fuel : nat) (st : store) (next_rowid oldestXmin : Z)
  : (Z * Z * store) + insert_end :=
  match fuel with
  | O => inr InsertNoFuel
  | S fuel' =>
    let rm := rowid_map (base_mmap st) in
    match gstoreFdwAllocateRowId (rowid_map_base rm) (rowid_map_nrooms rm) next_rowid with
    | None => inr InsertNoFuel
    | Some (m', rowid) =>
      let st1 := {| base_mmap := set_rowid_map_base (base_mmap st) m';
                    redo := redo st |} in
      if nrooms (schema (base_mmap st1)) <=? rowid then
        inr (InsertElog "gstore_fdw: has no room to INSERT any rows" st1)
      else
        let next_rowid' := u32 (rowid + 1) in
        let '(ok, kds') :=
          gstoreCheckVisibilityForWrite env (schema (base_mmap st1)) rowid oldestXmin in
        let st2 := {| base_mmap := set_schema (base_mmap st1) kds';
                      redo := redo st1 |} in
        if ok then inl (rowid, next_rowid', st2)
        else allocate_loop fuel' st2 next_rowid' oldestXmin
    end
  end.

(** [atomicMax32], for a backend that runs alone. *)
Definition atomicMax32 (oldval newval : Z) : Z :=
  if newval <=? oldval then oldval else newval.

(** [GstoreExecForeignInsert]: [slot] holds [tts_values]/[tts_isnull],
    [tuple] is the heap tuple fetched from the slot. *)
Definition GstoreExecForeignInsert (fuel : nat) (st : store)
    (next_rowid oldestXmin : Z) (slot : list (option Datum))
    (tuple : HeapTupleData) : insert_end :=
  match allocate_loop fuel st next_rowid oldestXmin with
  | inr e => e
  | inl (rowid, next_rowid', st1) =>
    let xid := GetCurrentTransactionId in
    (* append REDO/COMMIT logs *)
    match gstoreFdwAppendRedoLog random GetCurrentTimestamp offsetof_htup
            head_bytes tdtypeid tdtypmod fuel (redo st1) GSTORE_TX_LOG__INSERT
            rowid xid tuple None with
    | NoFuel => InsertNoFuel
    | Fault what => InsertFault what
    | Elog msg w => InsertElog msg {| base_mmap := base_mmap st1; redo := w |}
    | Ok w =>
      (* update base file *)
      let kds := schema (base_mmap st1) in
      let kds1 :=
        fold_left (fun k j =>
                     KDS_store_datum_column VARSIZE_ANY k j rowid
                                            (mjoin (slot !! Z.to_nat j)))
                  (seqZ 0 (natts kds)) kds in
      let sysattr := {| xmin := xid; xmax := InvalidTransactionId;
                        cid := GetCurrentCommandId |} in
      let kds2 := set_sysattr kds1 rowid sysattr in
      let kds3 := set_nitems kds2 (atomicMax32 (nitems kds2) (u32 (rowid + 1))) in
      Inserted rowid next_rowid'
               {| base_mmap := set_schema (base_mmap st1) kds3; redo := w |}
    end
  end.

End ExecInsert.

End Insert.
Export Insert.


(** * The layout of the row-id map, as the properties speak of it *)

Module Layout.

(** A map of [nrooms] rows has 1 to 4 levels ("capacities <= 256,
    <= 65536, <= 16777216, and beyond"). *)
Definition levels (nrooms : Z) : Z :=
  if nrooms <=? 2 ^ 8 then 1
  else if nrooms <=? 2 ^ 16 then 2
  else if nrooms <=? 2 ^ 24 then 3
  else 4.

(** The word of [base[]] at which level [d] starts: 4 words for the
    root, 4 << 8 and 4 << 16 words for the next two levels, which is how
    [gstoreFdwRowIdMapSize] counts them. *)
Definition level_start (d : Z) : Z :=
  if d =? 0 then 0
  else if d =? 1 then 4
  else if d =? 2 then 4 + Z.shiftl 4 8
  else 4 + Z.shiftl 4 8 + Z.shiftl 4 16.

(** The bit number [index] of the level that starts at word [start]. *)
Definition bit_of (m : list Z) (start index : Z) : bool :=
  Z.testbit (rd m (start + Z.shiftr index 6)) (Z.land index 63).

(** The bit of level [d] on the path from the root to the leaf bit of
    [rowid], in a map of [L] levels: every level drops 8 bits of the
    row-id. *)
Definition path_index (L d rowid : Z) : Z := Z.shiftr rowid (8 * (L - 1 - d)).
Definition path_bit (m : list Z) (L d rowid : Z) : bool :=
  bit_of m (level_start d) (path_index L d rowid).

(** The leaf bit of a row-id as [__gstoreFdwReleaseRowId] has it: the
    bit [rowid] of the last level, counted from the level starts above
    ([bottom[rowid >> 6] & (1UL << (rowid & 0x3f))]).  It is the bit that
    [__gstoreFdwAllocateRowId] sets only in maps of one or two levels; see
    [alloc_leaf_bit] for the others. *)
Definition leaf_bit (m : list Z) (nrooms rowid : Z) : bool :=
  path_bit m (levels nrooms) (levels nrooms - 1) rowid.

(** The word at which [__gstoreFdwAllocateRowId] places level [d]: it
    steps from one level to the next by [next_level], starting at
    [base]. *)
Definition alloc_level_start (d : Z) : Z :=
  if d =? 0 then 0
  else if d =? 1 then 4
  else if d =? 2 then 4 + (4 + Z.shiftl 4 8)
  else 4 + (4 + Z.shiftl 4 8) + (4 + Z.shiftl 4 8 + Z.shiftl 4 16).

(** The bit that [__gstoreFdwAllocateRowId] tests and sets for [rowid]:
    in a map of three levels it lies 4 words, in a map of four levels
    1032 words behind [leaf_bit]. *)
Definition alloc_leaf_bit (m : list Z) (nrooms rowid : Z) : bool :=
  bit_of m (alloc_level_start (levels nrooms - 1)) rowid.

End Layout.
Export Layout.

(** * What a rotation of the REDO log leaves behind *)

Module Rotation.
Import TxLog RedoLog.





End Rotation.
Export Rotation.

(** * A log segment, as the properties speak of it *)

Module LogLayout.
Import TxLog.

Definition known_type (t : log_type) : bool :=
  match t with GSTORE_TX_LOG__other _ => false | _ => true end.

Definition is_commit (t : log_type) : bool :=
  match t with GSTORE_TX_LOG__COMMIT => true | _ => false end.

(** The records of a segment that change rows. *)
Definition row_records (recs : list GstoreTxLogRow) : list GstoreTxLogRow :=
  List.filter (fun r => negb (is_commit (type r))) recs.

Section Segment.
Variable offsetof_data : Z.
Variable redo_mmap : GpuStoreRedoLogHead.
Variable redo_mmap_sz : Z.

(** [segment pos recs end_pos]: from [pos] on, the log holds the records
    [recs] of known kinds, each where its predecessor ends, and at
    [end_pos] either the tag is of no known kind or the mapping is used
    up. *)
Inductive segment : Z -> list GstoreTxLogRow -> Z -> Prop :=
| segment_end pos :
    redo_mmap_sz <= pos + offsetof_data \/
    known_type (type (record_at redo_mmap pos)) = false ->
    segment pos [] pos
| segment_record pos recs end_pos :
    pos + offsetof_data < redo_mmap_sz ->
    known_type (type (record_at redo_mmap pos)) = true ->
    segment (pos + length (record_at redo_mmap pos)) recs end_pos ->
    segment pos (record_at redo_mmap pos :: recs) end_pos.

End Segment.

(** The records [recs] applied to the base file one after the other,
    up to the first that raises an error. *)
Fixpoint apply_records (VARSIZE_ANY : Datum -> Z) (offsetof_htup : Z)
    (expansion_fails : Z -> option string)
    (recs : list GstoreTxLogRow) (base_mmap : GpuStoreBaseFileHead)
  : GpuStoreBaseFileHead + string :=
  match recs with
  | [] => inl base_mmap
  | r :: recs' =>
      match apply_row_log VARSIZE_ANY offsetof_htup expansion_fails base_mmap r with
      | inl base1 =>
          apply_records VARSIZE_ANY offsetof_htup expansion_fails recs' base1
      | inr msg => inr msg
      end
  end.

(** What a replay returned, if it returned. *)
Definition replayed (r : replay_end) : option (GpuStoreBaseFileHead * Z) :=
  match r with
  | Replayed base_mmap redo_pos => Some (base_mmap, redo_pos)
  | _ => None
  end.

(** A replay that does not return ends in an error of the expansion of
    the extra buffer, never by running out of fuel; when it returns, [P]
    holds of what it returns. *)
Definition returns_or_fails_to_expand (expansion_fails : Z -> option string)
    (r : replay_end) (P : GpuStoreBaseFileHead -> Z -> Prop) : Prop :=
  match r with
  | Replayed base_mmap redo_pos => P base_mmap redo_pos
  | ReplayElog msg => exists sz, expansion_fails sz = Some msg
  | ReplayNoFuel => False
  end.

(** A replay that never returns: it runs as long as it is given fuel,
    unless an expansion of the extra buffer fails. *)
Definition never_returns (expansion_fails : Z -> option string) (r : replay_end)
  : Prop :=
  match r with
  | Replayed _ _ => False
  | ReplayElog msg => exists sz, expansion_fails sz = Some msg
  | ReplayNoFuel => True
  end.

End LogLayout.
Export LogLayout.

(** * The store as a set of locations, and a record as an assignment *)

Module Locations.
Import TxLog.

(** Parallel assignments over any set of locations: the locations
    written, and the value each of them gets, computed from the state
    before. *)
Section Assign.
Context {L V : Type}.

Definition assignment : Type := (L -> bool) * ((L -> V) -> L -> V).

Definition assign (f : L -> V) (s : assignment) : L -> V :=
  fun l => if s.1 l then s.2 f l else f l.

Definition run (steps : list assignment) (f : L -> V) : L -> V :=
  fold_left assign steps f.

(** No step writes [l]. *)
Definition untouched (steps : list assignment) (l : L) : Prop :=
  forall s, s ∈ steps -> s.1 l = false.

(** Every step computes its values from locations that no step writes. *)
Definition reads_untouched (steps : list assignment) : Prop :=
  forall s, s ∈ steps -> forall f g l,
    (forall l', untouched steps l' -> f l' = g l') -> s.2 f l = s.2 g l.

End Assign.

(** What a store holds: the cells of the user columns, the three system
    attributes of every row, and whether the entry of the row in the
    system column has been written at all. *)
Inductive loc :=
| Cell (j row : Z)
| Xmin (row : Z)
| Xmax (row : Z)
| Cid (row : Z)
| Present (row : Z).

Definition view (kds : kern_data_store) (l : loc) : option Z :=
  match l with
  | Cell j row => cells kds !! (j, row)
  | Xmin row => Some (xmin (sysattr_at kds row))
  | Xmax row => Some (xmax (sysattr_at kds row))
  | Cid row => Some (cid (sysattr_at kds row))
  | Present row => match syscol kds !! row with Some _ => Some 0 | None => None end
  end.

(** [oldid] of [__ApplyRedoLogUpdate]: the row-id in [t_ctid]. *)
Definition oldid (r : GstoreTxLogRow) : Z :=
  Z.lor (Z.shiftl (bi_hi (htup r)) 16) (bi_lo (htup r)).


(** The locations a record writes, in a store of [n] user columns. *)
Definition targets (n : Z) (r : GstoreTxLogRow) (l : loc) : bool :=
  match type r, l with
  | GSTORE_TX_LOG__INSERT, Cell j row =>
      (row =? rowid r) && (0 <=? j) && (j <? n)
  | GSTORE_TX_LOG__INSERT, (Xmin row | Xmax row | Cid row | Present row) =>
      row =? rowid r
  | GSTORE_TX_LOG__UPDATE, Cell j row =>
      (row =? rowid r) && (0 <=? j) && (j <? n)
  | GSTORE_TX_LOG__UPDATE, Xmin row => row =? oldid r
  | GSTORE_TX_LOG__UPDATE, Xmax row => row =? rowid r
  | GSTORE_TX_LOG__UPDATE, (Cid row | Present row) =>
      (row =? rowid r) || (row =? oldid r)
  | GSTORE_TX_LOG__DELETE, (Xmax row | Cid row | Present row) => row =? rowid r
  | _, _ => false
  end.

(** The values they get. *)
Definition values (r : GstoreTxLogRow) (f : loc -> option Z) (l : loc) : option Z :=
  match l with
  | Cell j _ =>
      if is_update (type r) && mask_bit (update_mask r) j
      then f (Cell j (oldid r)) else deformed (htup r) j
  | Xmin _ => Some (t_xmin (htup r))
  | Xmax _ =>
      match type r with
      | GSTORE_TX_LOG__INSERT => Some InvalidTransactionId
      | GSTORE_TX_LOG__UPDATE => Some (t_xmin (htup r))
      | _ => Some (t_xmax (htup r))
      end
  | Cid _ => Some (t_cid (htup r))
  | Present _ => Some 0
  end.

Definition assignment_of (n : Z) (r : GstoreTxLogRow) : @assignment loc (option Z) :=
  (targets n r, values r).

(** The step of the replay on the store: what [apply_row_log] does to
    the schema when no extra buffer is involved. *)
Definition apply_to_store (VARSIZE_ANY : Datum -> Z) (kds : kern_data_store)
    (r : GstoreTxLogRow) : kern_data_store :=
  match type r with
  | GSTORE_TX_LOG__INSERT => __ApplyRedoLogInsert VARSIZE_ANY kds r
  | GSTORE_TX_LOG__UPDATE =>
      match __ApplyRedoLogUpdate VARSIZE_ANY kds r with
      | inl kds' => kds'
      | inr _ => kds
      end
  | GSTORE_TX_LOG__DELETE => __ApplyRedoLogDelete kds r
  | _ => kds
  end.

(** A store without columns of variable length. *)
Definition fixed_width (kds : kern_data_store) : Prop :=
  has_varlena kds = false /\ Forall (fun attlen => attlen <> -1) (colmeta kds).


End Locations.
Export Locations.

(** * Sample inputs *)

Module Samples.

(** A store of one row. *)
Definition one_row (s : GstoreFdwSysattr) : kern_data_store :=
  {| nrooms := 1; nitems := 1; colmeta := []; has_varlena := false; usage := 0;
     extra_hoffset := 0; extra_hlength := 0; cells := ∅;
     syscol := {[ 0 := s ]} |}.

(** Transaction 100 has committed by now; the reader is transaction 200,
    and its snapshot was taken while 100 was in progress. *)
Definition env_after_commit : XactEnv :=
  {| TransactionIdIsCurrentTransactionId := fun x => x =? 200;
     TransactionIdIsInProgress := fun _ => false;
     TransactionIdDidCommit := fun x => x =? 100 |}.
Definition snapshot_before_commit : SnapshotData :=
  {| snap_xmin := 100; snap_xmax := 101; xip := [100]; curcid := 0 |}.

(** Nobody has written the row; no transaction is under way. *)
Definition env_idle : XactEnv :=
  {| TransactionIdIsCurrentTransactionId := fun _ => false;
     TransactionIdIsInProgress := fun _ => false;
     TransactionIdDidCommit := fun _ => false |}.

(** Transaction 50 deleted the row and has committed. *)
Definition env_deleter_committed : XactEnv :=
  {| TransactionIdIsCurrentTransactionId := fun _ => false;
     TransactionIdIsInProgress := fun _ => false;
     TransactionIdDidCommit := fun x => x =? 50 |}.

(** An index of two buckets over two rows: the bucket of key 7 starts
    at row 0, which holds key 3, and whose "next" entry is 9. *)
Definition sample_index : GpuStoreHashIndexHead :=
  {| hi_nrooms := 2; hi_nslots := 2; slots := [UINT_MAX; 0; 9; UINT_MAX] |}.
Definition sample_keys : kern_data_store :=
  {| nrooms := 2; nitems := 1; colmeta := [4]; has_varlena := false; usage := 0;
     extra_hoffset := 0; extra_hlength := 0; cells := {[ (0, 0) := 3 ]};
     syscol := ∅ |}.

(** A log of the smallest size the options allow (128MB), 28 bytes
    short of its limit, not mapped yet; the directory holds nothing but
    the log. *)
Definition sample_log_file : RedoLog.file :=
  {| RedoLog.f_size := 134217728;
     RedoLog.f_content :=
       {| TxLog.signature := TxLog.GPUSTORE_REDOLOG_SIGNATURE;
          TxLog.head_timestamp := 0;
          TxLog.checkpoint_offset := TxLog.redo_head_sz;
          TxLog.data := ∅ |} |}.
Definition sample_world : RedoLog.world :=
  {| RedoLog.fs := {| RedoLog.dir := {[ "redo.log" := 1%nat ]};
                      RedoLog.inodes := {[ 1%nat := sample_log_file ]} |};
     RedoLog.gs_sstate :=
       {| RedoLog.redo_log_file := "redo.log";
          RedoLog.redo_log_limit := 134217728;
          RedoLog.redo_mmap_revision := 7;
          RedoLog.redo_log_pos := 134217700;
          RedoLog.redo_mmap_lock := None |};
     RedoLog.gs_desc := {| RedoLog.redo_mmap := None;
                           RedoLog.desc_redo_mmap_revision := 0 |};
     RedoLog.rng := 0;
     RedoLog.history := [] |}.
Definition sample_random (n : nat) : Z := 1000 + Z.of_nat n.
(** A tuple of 32 bytes with one attribute, 7. *)
Definition sample_tuple : TxLog.HeapTupleData :=
  {| TxLog.t_len := 32;
     TxLog.t_data := {| TxLog.t_xmin := 100; TxLog.t_xmax := 0; TxLog.t_cid := 0;
                        TxLog.bi_hi := 0; TxLog.bi_lo := 0;
                        TxLog.t_values := [Some 7] |};
     TxLog.t_bytes := replicate 32 0 |}.

(** A record layout for the samples: 24 bytes in front of [htup], here
    all zero. *)
Definition sample_head (t : TxLog.log_type) (len ts row : Z) (xid : TransactionId)
  : list Z :=
  replicate 24 0.

(** A base file that was left mapped, of 4 rows with one integer
    column, an empty row-id map and an empty hash index. *)
Definition sample_base : GpuStoreBaseFileHead :=
  {| base_signature := GPUSTORE_BASEFILE_MAPPED_SIGNATURE;
     schema := {| nrooms := 4; nitems := 0; colmeta := [4]; has_varlena := false;
                  usage := 0; extra_hoffset := 0; extra_hlength := 0;
                  cells := ∅; syscol := ∅ |};
     rowid_map := {| rowid_map_nrooms := 4; rowid_map_base := [0; 0; 0; 0] |};
     hash_index := Some {| hi_nrooms := 4; hi_nslots := 2;
                           slots := replicate 6 UINT_MAX |};
     base_mmap_sz := 8192 |}.

(** A record of 64 bytes as the writer lays it out: the first word of
    [t_choice] is the datum length (32 bytes: the word 128), the second
    is [t_xmax], the third, [c], is [t_cid]; the bytes of [image] spell
    the same words and the block number of [t_ctid]. *)
Definition sample_record (t : TxLog.log_type) (row oldrow value : Z) (c : Z)
  : TxLog.GstoreTxLogRow :=
  {| TxLog.type := t; TxLog.length := 64; TxLog.timestamp := 0;
     TxLog.rowid := row; TxLog.xid := 100;
     TxLog.htup := {| TxLog.t_xmin := TxLog.SET_VARSIZE 32; TxLog.t_xmax := 100;
                      TxLog.t_cid := c;
                      TxLog.bi_hi := 0; TxLog.bi_lo := oldrow;
                      TxLog.t_values := [Some value] |};
     TxLog.image := replicate 24 0 ++ TxLog.le32 (TxLog.SET_VARSIZE 32)
                    ++ TxLog.le32 100 ++ TxLog.le32 c
                    ++ TxLog.le16 0 ++ TxLog.le16 oldrow |}.

Definition sample_log (recs : gmap Z TxLog.GstoreTxLogRow) : TxLog.GpuStoreRedoLogHead :=
  {| TxLog.signature := TxLog.GPUSTORE_REDOLOG_SIGNATURE;
     TxLog.head_timestamp := 0;
     TxLog.checkpoint_offset := 24;
     TxLog.data := recs |}.

(** One INSERT of the value 7 into row 0 by transaction 100. *)
Definition log_one_insert : TxLog.GpuStoreRedoLogHead :=
  sample_log {[ 24 := sample_record TxLog.GSTORE_TX_LOG__INSERT 0 0 7 0 ]}.


(** A base file of 20 million rows with one column of variable length:
    320MB of fixed-length sections, followed by the extra buffer, which
    is in use up to its end. *)
Definition base_extra_full : GpuStoreBaseFileHead :=
  {| base_signature := GPUSTORE_BASEFILE_MAPPED_SIGNATURE;
     schema := {| nrooms := 20000000; nitems := 0; colmeta := [-1];
                  has_varlena := true;
                  usage := 640001024;
                  extra_hoffset := 335544320 - offsetof_schema;
                  extra_hlength := 640001024; cells := ∅; syscol := ∅ |};
     rowid_map := {| rowid_map_nrooms := 20000000; rowid_map_base := [] |};
     hash_index := None;
     base_mmap_sz := 335544320 + 640001024 |}.

(** Every call of an expansion succeeds. *)
Definition expansion_succeeds (sz : Z) : option string := None.

End Samples.
Export Samples.


Module MoreSamples.

(** An INSERT into row 0, the COMMIT of its transaction (a record of 24
    bytes), and a DELETE of row 0. *)
Definition commit_record : TxLog.GstoreTxLogRow :=
  {| TxLog.type := TxLog.GSTORE_TX_LOG__COMMIT;
     TxLog.length := 24;
     TxLog.timestamp := 0;
     TxLog.rowid := 0;
     TxLog.xid := 100;
     TxLog.htup := TxLog.htup TxLog.zero_record;
     TxLog.image := [] |}.

Definition log_insert_commit_delete : TxLog.GpuStoreRedoLogHead :=
  sample_log {[ 24 := sample_record TxLog.GSTORE_TX_LOG__INSERT 0 0 7 0;
                88 := commit_record;
                112 := sample_record TxLog.GSTORE_TX_LOG__DELETE 0 0 0 0 ]}.

(** A log whose first record is a COMMIT of length 0. *)
Definition log_empty_record : TxLog.GpuStoreRedoLogHead :=
  sample_log {[ 24 := {| TxLog.type := TxLog.GSTORE_TX_LOG__COMMIT;
                         TxLog.length := 0;
                         TxLog.timestamp := 0;
                         TxLog.rowid := 0;
                         TxLog.xid := 100;
                         TxLog.htup := TxLog.htup TxLog.zero_record;
                         TxLog.image := [] |} ]}.

End MoreSamples.
Export MoreSamples.

Module WriterSamples.



(** A log limit of 40 bytes: no row record fits behind the header. *)
Definition world_small_limit : RedoLog.world :=
  {| RedoLog.fs := RedoLog.fs sample_world;
     RedoLog.gs_sstate :=
       {| RedoLog.redo_log_file := "redo.log";
          RedoLog.redo_log_limit := 40;
          RedoLog.redo_mmap_revision := 7;
          RedoLog.redo_log_pos := TxLog.redo_head_sz;
          RedoLog.redo_mmap_lock := None |};
     RedoLog.gs_desc := RedoLog.gs_desc sample_world;
     RedoLog.rng := 0;
     RedoLog.history := [] |}.


End WriterSamples.
Export WriterSamples.

Module ReplaySamples.


End ReplaySamples.
Export ReplaySamples.

(** * Further definitions the properties speak of *)

Module Sanity.

(** What PostgreSQL's transaction manager guarantees of its answers: the
    current transaction is in progress, and [InvalidTransactionId] is
    neither current nor committed. *)
Record XactEnv_sane (env : XactEnv) : Prop := {
  current_in_progress :
    forall x, TransactionIdIsCurrentTransactionId env x = true ->
              TransactionIdIsInProgress env x = true;
  invalid_not_current :
    TransactionIdIsCurrentTransactionId env InvalidTransactionId = false;
  invalid_not_committed :
    TransactionIdDidCommit env InvalidTransactionId = false
}.

(** Transaction 200 runs and is the current one; 100 has committed. *)
Definition env_running : XactEnv :=
  {| TransactionIdIsCurrentTransactionId := fun x => x =? 200;
     TransactionIdIsInProgress := fun x => x =? 200;
     TransactionIdDidCommit := fun x => x =? 100 |}.

End Sanity.
Export Sanity.

Module ReleasePath.

(** The word and the bit of level [d] on the path to [rowid], in a map
    of [L] levels. *)
Definition path_word (L d rowid : Z) : Z :=
  level_start d + Z.shiftr (path_index L d rowid) 6.
Definition path_pos (L d rowid : Z) : Z := Z.land (path_index L d rowid) 63.

(** Clearing the bit of every level on the path, from the root down. *)
Definition clear_path (m : list Z) (L rowid : Z) : list Z :=
  fold_left (fun m d => clear_bit m (path_word L d rowid) (path_pos L d rowid))
            (seqZ 0 L) m.

End ReleasePath.
Export ReleasePath.
(** * Properties *)

(** ** Visibility *)

Section VisibilityFacts.

(** The check for a reader goes through the system attributes of the
    row alone. *)
Lemma gstoreCheckVisibilityForRead_fst env kds rowid snapshot :
  fst (gstoreCheckVisibilityForRead env kds rowid snapshot)
  = fst (__gstoreCheckVisibilityForRead env (sysattr_at kds rowid) (curcid snapshot)).
Proof.
  unfold gstoreCheckVisibilityForRead.
  destruct (__gstoreCheckVisibilityForRead _ _ _); reflexivity.
Qed.

Lemma gstoreCheckVisibilityForWrite_fst env kds rowid oldestXmin :
  fst (gstoreCheckVisibilityForWrite env kds rowid oldestXmin)
  = fst (CheckVisibilityForWrite_sysattr env (sysattr_at kds rowid) oldestXmin).
Proof.
  unfold gstoreCheckVisibilityForWrite.
  destruct (CheckVisibilityForWrite_sysattr _ _ _); reflexivity.
Qed.

(** C3, as stated, fails: the row inserted by transaction 100 is shown to
    a reader whose snapshot lists 100 as in progress, as soon as 100 has
    committed. *)
Lemma C3_snapshot_is_not_consulted :
  In 100 (xip snapshot_before_commit) /\
  fst (gstoreCheckVisibilityForRead env_after_commit
         (one_row {| xmin := 100; xmax := 0; cid := 0 |}) 0
         snapshot_before_commit) = true.
Proof. split; [left; reflexivity | vm_compute; reflexivity]. Qed.

(** C3, amended: the check reads the state of the transactions at the
    time of the check and the command id of the reader.  A row whose
    inserter is another transaction that has not committed is invisible;
    an undeleted row whose inserter has committed (or is frozen) is
    visible whatever the snapshot lists; a transaction sees its own
    undeleted insertion of an earlier command id. *)
Theorem C3_read_visibility env kds rowid snapshot :
  let s := sysattr_at kds rowid in
  let visible := fst (gstoreCheckVisibilityForRead env kds rowid snapshot) in
  (xmin s <> FrozenTransactionId ->
   TransactionIdIsCurrentTransactionId env (xmin s) = false ->
   TransactionIdDidCommit env (xmin s) = false ->
   visible = false)
  /\
  (xmin s = FrozenTransactionId \/
   (TransactionIdIsCurrentTransactionId env (xmin s) = false /\
    TransactionIdDidCommit env (xmin s) = true) ->
   xmax s = InvalidTransactionId ->
   visible = true)
  /\
  (xmin s <> FrozenTransactionId ->
   TransactionIdIsCurrentTransactionId env (xmin s) = true ->
   cid s < curcid snapshot ->
   xmax s = InvalidTransactionId ->
   visible = true).
Proof.
  intros s visible. subst visible.
  rewrite gstoreCheckVisibilityForRead_fst. fold s.
  unfold __gstoreCheckVisibilityForRead, read_xmin_phase, read_xmax_phase.
  repeat split.
  - intros Hfrozen Hcur Hcommit.
    apply Z.eqb_neq in Hfrozen. rewrite Hfrozen, Hcur, Hcommit. simpl.
    destruct (TransactionIdIsInProgress env (xmin s)); reflexivity.
  - intros Hins Hlive. apply Z.eqb_eq in Hlive.
    destruct Hins as [Hfrozen | [Hcur Hcommit]].
    + apply Z.eqb_eq in Hfrozen. rewrite Hfrozen. simpl. rewrite Hlive. reflexivity.
    + rewrite Hcur, Hcommit.
      destruct (xmin s =? FrozenTransactionId); simpl; rewrite Hlive; reflexivity.
  - intros Hfrozen Hcur Hcid Hlive. apply Z.eqb_eq in Hlive.
    apply Z.eqb_neq in Hfrozen. rewrite Hfrozen, Hcur, Hlive. simpl.
    destruct (curcid snapshot <=? cid s) eqn:Hle; [ | reflexivity].
    apply Z.leb_le in Hle. lia.
Qed.

(** C2, as stated, fails: a row nobody has written is reported
    reclaimable although it has no deleting transaction. *)
Lemma C2_unwritten_row_is_reclaimable :
  fst (gstoreCheckVisibilityForWrite env_idle (one_row zero_sysattr) 0 100) = true /\
  xmax (sysattr_at (one_row zero_sysattr) 0) = InvalidTransactionId /\
  TransactionIdDidCommit env_idle (xmax (sysattr_at (one_row zero_sysattr) 0)) = false.
Proof. vm_compute. repeat split. Qed.

(** C2, amended: the slot of a row is reported reclaimable only if nobody
    has written the row, or its inserter is neither the current
    transaction, nor in progress, nor committed, or else the insertion is
    committed (or frozen) and the row has a deleter that is frozen or
    that is not in progress and has committed. *)
Theorem C2_write_visibility env kds rowid oldestXmin :
  let s := sysattr_at kds rowid in
  fst (gstoreCheckVisibilityForWrite env kds rowid oldestXmin) = true ->
  xmin s = InvalidTransactionId
  \/ (xmin s <> FrozenTransactionId /\
      TransactionIdIsCurrentTransactionId env (xmin s) = false /\
      TransactionIdIsInProgress env (xmin s) = false /\
      TransactionIdDidCommit env (xmin s) = false)
  \/ ((xmin s = FrozenTransactionId \/
       (TransactionIdIsCurrentTransactionId env (xmin s) = false /\
        TransactionIdIsInProgress env (xmin s) = false /\
        TransactionIdDidCommit env (xmin s) = true)) /\
      xmax s <> InvalidTransactionId /\
      (xmax s = FrozenTransactionId \/
       (TransactionIdIsInProgress env (xmax s) = false /\
        TransactionIdDidCommit env (xmax s) = true))).
Proof.
  intros s. rewrite gstoreCheckVisibilityForWrite_fst. fold s.
  unfold CheckVisibilityForWrite_sysattr, write_xmin_phase, write_xmax_phase.
  destruct (xmin s =? FrozenTransactionId) eqn:Hfrozen; simpl.
  - apply Z.eqb_eq in Hfrozen.
    destruct (xmax s =? InvalidTransactionId) eqn:Hlive; simpl; [discriminate | ].
    apply Z.eqb_neq in Hlive.
    destruct (xmax s =? FrozenTransactionId) eqn:Hdead; simpl.
    + apply Z.eqb_eq in Hdead. intros _. right; right. auto.
    + destruct (TransactionIdIsInProgress env (xmax s)) eqn:Hprog; simpl;
        [discriminate | ].
      destruct (TransactionIdDidCommit env (xmax s)) eqn:Hcommit; simpl;
        [ | discriminate].
      intros _. right; right. auto.
  - apply Z.eqb_neq in Hfrozen.
    destruct (xmin s =? InvalidTransactionId) eqn:Hnone; simpl.
    { apply Z.eqb_eq in Hnone. auto. }
    destruct (TransactionIdIsCurrentTransactionId env (xmin s)) eqn:Hcur; simpl;
      [discriminate | ].
    destruct (TransactionIdIsInProgress env (xmin s)) eqn:Hins; simpl;
      [discriminate | ].
    destruct (TransactionIdDidCommit env (xmin s)) eqn:Hcom; simpl.
    + destruct (xmax s =? InvalidTransactionId) eqn:Hlive; simpl; [discriminate | ].
      apply Z.eqb_neq in Hlive.
      destruct (xmax s =? FrozenTransactionId) eqn:Hdead; simpl.
      * apply Z.eqb_eq in Hdead. intros _. right; right. auto 6.
      * destruct (TransactionIdIsInProgress env (xmax s)) eqn:Hprog; simpl;
          [discriminate | ].
        destruct (TransactionIdDidCommit env (xmax s)) eqn:Hcommit; simpl;
          [ | discriminate].
        intros _. right; right. auto 7.
    + intros _. right; left. auto.
Qed.

Lemma C2_write_visibility_witness :
  let kds := one_row {| xmin := FrozenTransactionId; xmax := 50; cid := 0 |} in
  fst (gstoreCheckVisibilityForWrite env_deleter_committed kds 0 100) = true /\
  xmax (sysattr_at kds 0) <> InvalidTransactionId.
Proof.
  intros kds.
  assert (Hrun : fst (gstoreCheckVisibilityForWrite env_deleter_committed kds 0 100)
                 = true) by (vm_compute; reflexivity).
  split; [exact Hrun | ].
  destruct (C2_write_visibility env_deleter_committed kds 0 100 Hrun)
    as [H | [H | H]].
  - vm_compute in H. discriminate.
  - destruct H as [_ [_ [_ H]]]. vm_compute. discriminate.
  - destruct H as [_ [H _]]. exact H.
Defined.

(** Beyond what C2 as amended says: once the deleter has committed, the
    check overwrites [xmax] with [InvalidTransactionId] and compares that
    value with the horizon, so a deleter younger than the horizon (150,
    horizon 120) makes the row reclaimable as well, and the row is left
    with no deleter. *)
Lemma write_check_loses_committed_deleter :
  let env := {| TransactionIdIsCurrentTransactionId := fun _ => false;
                TransactionIdIsInProgress := fun _ => false;
                TransactionIdDidCommit := fun x => x =? 150 |} in
  let kds := one_row {| xmin := FrozenTransactionId; xmax := 150; cid := 0 |} in
  TransactionIdPrecedes 150 120 = false /\
  fst (gstoreCheckVisibilityForWrite env kds 0 120) = true /\
  xmax (sysattr_at (snd (gstoreCheckVisibilityForWrite env kds 0 120)) 0)
  = InvalidTransactionId.
Proof. vm_compute. repeat split. Qed.

(** Beyond what C3 as amended says: the first check after the deleter
    (transaction 70) has aborted resets [xmax] and still answers
    "invisible"; the next check finds the row visible. *)
Lemma read_check_after_deleter_abort :
  let kds := one_row {| xmin := FrozenTransactionId; xmax := 70; cid := 0 |} in
  let first := gstoreCheckVisibilityForRead env_idle kds 0 snapshot_before_commit in
  fst first = false /\
  fst (gstoreCheckVisibilityForRead env_idle (snd first) 0 snapshot_before_commit)
  = true.
Proof. vm_compute. split; reflexivity. Qed.

End VisibilityFacts.

(** ** The row-id map *)

Section WordFacts.

Lemma u64_range z : 0 <= u64 z < 2 ^ 64.
Proof. unfold u64. apply Z.mod_pos_bound. lia. Qed.

Lemma rd_range m i : 0 <= rd m i < 2 ^ 64.
Proof. apply u64_range. Qed.

Lemma u64_testbit z b : 0 <= b < 64 -> Z.testbit (u64 z) b = Z.testbit z b.
Proof. intros Hb. unfold u64. apply Z.mod_pow2_bits_low. lia. Qed.

Lemma u64_testbit_high z b : 64 <= b -> Z.testbit (u64 z) b = false.
Proof. intros Hb. unfold u64. apply Z.mod_pow2_bits_high. lia. Qed.

Lemma rd_wr (m : list Z) i j v :
  0 <= i -> 0 <= j -> rd (wr m i v) j = if i =? j then u64 v else rd m j.
Proof.
  intros Hi Hj. unfold rd, wr.
  destruct (Nat.ltb_spec (Z.to_nat i) (List.length m)) as [Hin | Hout].
  - destruct (Z.eqb_spec i j) as [-> | Hne].
    + rewrite list_lookup_insert_eq by exact Hin. reflexivity.
    + rewrite list_lookup_insert_ne by lia. reflexivity.
  - destruct (Z.eqb_spec i j) as [-> | Hne].
    + rewrite lookup_app_r by exact Hout.
      rewrite lookup_app_r by (rewrite length_replicate; lia).
      rewrite length_replicate, Nat.sub_diag. reflexivity.
    + destruct (Nat.lt_ge_cases (Z.to_nat j) (List.length m)) as [Hj1 | Hj1].
      * rewrite lookup_app_l by exact Hj1. reflexivity.
      * rewrite lookup_app_r by exact Hj1.
        rewrite (lookup_ge_None_2 m) by exact Hj1.
        destruct (Nat.lt_ge_cases (Z.to_nat j) (Z.to_nat i)) as [Hj2 | Hj2].
        -- rewrite lookup_app_l by (rewrite length_replicate; lia).
           rewrite lookup_replicate_2 by lia. reflexivity.
        -- rewrite lookup_app_r by (rewrite length_replicate; lia).
           rewrite length_replicate.
           rewrite lookup_ge_None_2; [reflexivity | ]. simpl. lia.
Qed.

Lemma rd_wr_same (m : list Z) i v : 0 <= i -> rd (wr m i v) i = u64 v.
Proof. intros Hi. rewrite rd_wr by assumption. rewrite Z.eqb_refl. reflexivity. Qed.

Lemma rd_wr_other (m : list Z) i j v :
  0 <= i -> 0 <= j -> i <> j -> rd (wr m i v) j = rd m j.
Proof.
  intros Hi Hj Hne. rewrite rd_wr by assumption.
  destruct (Z.eqb_spec i j); [contradiction | reflexivity].
Qed.

Lemma length_wr (m : list Z) i v :
  (Z.to_nat i < List.length m)%nat -> List.length (wr m i v) = List.length m.
Proof.
  intros Hin. unfold wr. apply Nat.ltb_lt in Hin. rewrite Hin. apply length_insert.
Qed.

(** A word that is not 0 lies inside the list. *)
Lemma rd_nonzero_in_range (m : list Z) i :
  rd m i <> 0 -> (Z.to_nat i < List.length m)%nat.
Proof.
  intros Hne. destruct (Nat.lt_ge_cases (Z.to_nat i) (List.length m)) as [H | H];
    [exact H | ].
  exfalso. apply Hne. unfold rd. rewrite lookup_ge_None_2 by exact H. reflexivity.
Qed.

Lemma testbit_one_shifted b n : 0 <= b -> Z.testbit (Z.shiftl 1 b) n = (b =? n).
Proof.
  intros Hb. rewrite Z.shiftl_1_l. destruct (Z.eq_dec b n) as [-> | Hne].
  - rewrite Z.pow2_bits_true by exact Hb. symmetry; apply Z.eqb_refl.
  - rewrite Z.pow2_bits_false by exact Hne. symmetry; apply Z.eqb_neq; exact Hne.
Qed.

Lemma bit_is_clear_spec m i b :
  0 <= b -> bit_is_clear m i b = negb (Z.testbit (rd m i) b).
Proof.
  intros Hb. unfold bit_is_clear.
  destruct (Z.testbit (rd m i) b) eqn:Hbit; simpl.
  - apply Z.eqb_neq. intros Hzero.
    assert (Hb' : Z.testbit (Z.land (rd m i) (Z.shiftl 1 b)) b = true).
    { rewrite Z.land_spec, Hbit, testbit_one_shifted by exact Hb.
      rewrite Z.eqb_refl. reflexivity. }
    rewrite Hzero, Z.bits_0 in Hb'. discriminate.
  - apply Z.eqb_eq. apply Z.bits_inj'. intros n Hn.
    rewrite Z.land_spec, testbit_one_shifted, Z.bits_0 by exact Hb.
    destruct (Z.eqb_spec b n) as [-> | Hne].
    + rewrite Hbit. reflexivity.
    + apply andb_false_r.
Qed.

Lemma testbit_not64_one b n :
  0 <= n < 64 -> 0 <= b -> Z.testbit (not64 (Z.shiftl 1 b)) n = negb (b =? n).
Proof.
  intros Hn Hb. unfold not64. rewrite u64_testbit by exact Hn.
  rewrite Z.lnot_spec by lia. rewrite testbit_one_shifted by exact Hb. reflexivity.
Qed.

(** [clear_bit] clears the bit it names ... *)
Lemma clear_bit_clears (m : list Z) i b :
  0 <= i -> 0 <= b < 64 ->
  Z.testbit (rd (clear_bit m i b) i) b = false.
Proof.
  intros Hi Hb. unfold clear_bit.
  rewrite rd_wr_same by assumption. rewrite u64_testbit by exact Hb.
  rewrite Z.land_spec, testbit_not64_one by lia.
  rewrite Z.eqb_refl. apply andb_false_r.
Qed.

(** ... and sets none. *)
Lemma clear_bit_keeps_clear (m : list Z) i b j c :
  0 <= i -> 0 <= j -> 0 <= b ->
  Z.testbit (rd m i) b = false ->
  Z.testbit (rd (clear_bit m j c) i) b = false.
Proof.
  intros Hi Hj Hb Hclear. unfold clear_bit.
  destruct (Z.eq_dec j i) as [-> | Hne].
  - rewrite rd_wr_same by assumption.
    destruct (Z.lt_ge_cases b 64) as [Hlow | Hhigh].
    + rewrite u64_testbit by lia. rewrite Z.land_spec, Hclear. reflexivity.
    + apply u64_testbit_high. exact Hhigh.
  - rewrite rd_wr_other by assumption. exact Hclear.
Qed.

Lemma length_clear_bit (m : list Z) i b :
  (Z.to_nat i < List.length m)%nat ->
  List.length (clear_bit m i b) = List.length m.
Proof. intros Hin. unfold clear_bit. apply length_wr. exact Hin. Qed.

Lemma shiftr_lt z k n : 0 <= z < 2 ^ (k + n) -> 0 <= k -> 0 <= n -> 0 <= Z.shiftr z k < 2 ^ n.
Proof.
  intros Hz Hk Hn. rewrite Z.shiftr_div_pow2 by exact Hk. split.
  - apply Z.div_pos; lia.
  - apply Z.div_lt_upper_bound; [lia | ]. rewrite <- Z.pow_add_r by lia. lia.
Qed.

Lemma land_63_range z : 0 <= Z.land z 63 < 64.
Proof.
  change 63 with (Z.ones 6). rewrite Z.land_ones by lia.
  apply Z.mod_pos_bound. lia.
Qed.

(** [TYPEALIGN(256, n)] is the least multiple of 256 that is not below
    [n]. *)
Lemma TYPEALIGN_256 n : 0 <= n -> TYPEALIGN 256 n = 256 * ((n + 255) / 256).
Proof.
  intros Hn. unfold TYPEALIGN. change (256 - 1) with (Z.ones 8).
  rewrite <- Z.ldiff_land, Z.ldiff_ones_r by lia.
  rewrite Z.shiftl_mul_pow2, Z.shiftr_div_pow2 by lia.
  change (2 ^ 8) with 256. change (Z.ones 8) with 255. lia.
Qed.

Lemma leaf_word_in_range nrooms rowid :
  0 <= rowid < nrooms -> Z.shiftr rowid 6 < TYPEALIGN 256 nrooms / 64.
Proof.
  intros Hr. rewrite TYPEALIGN_256 by lia. rewrite Z.shiftr_div_pow2 by lia.
  change (2 ^ 6) with 64.
  replace (256 * ((nrooms + 255) / 256)) with ((4 * ((nrooms + 255) / 256)) * 64)
    by lia.
  rewrite Z.div_mul by lia.
  apply Z.div_lt_upper_bound; [lia | ].
  pose proof (Z.mul_succ_div_gt (nrooms + 255) 256 ltac:(lia)). lia.
Qed.

End WordFacts.
(** ** Allocation and release on a map of three levels *)

(** C8 fails on a map of three levels (65537 rows, 2056 words), by the
    defect of C4: [__gstoreFdwAllocateRowId] keeps the third level 4
    words behind the place where [__gstoreFdwReleaseRowId] looks for it.
    Row-id 0 is allocated; its release answers false and leaves the map
    as it is, so the row-id stays allocated (the next allocation from 0
    returns 1).  Row-id 256 is allocated as well; the release of row-id
    512, which was never handed out, answers true: it clears the bit that
    marks row-id 256. *)
Lemma C8_allocated_row_is_not_released :
  gstoreFdwRowIdMapSize_words 65537 = 2056 /\
  ('(m1, r1) ← gstoreFdwAllocateRowId (replicate 2056 0) 65537 0;
   let '(released0, m1r) := __gstoreFdwReleaseRowId m1 65537 r1 in
   '(m2, r2) ← gstoreFdwAllocateRowId m1r 65537 0;
   '(m3, r3) ← gstoreFdwAllocateRowId m2 65537 256;
   let '(released512, m4) := __gstoreFdwReleaseRowId m3 65537 512 in
   Some (r1, released0, bool_decide (m1r = m1), alloc_leaf_bit m1r 65537 r1, r2,
         r3, alloc_leaf_bit m3 65537 256, released512,
         alloc_leaf_bit m4 65537 256))
  = Some (0, false, true, true, 1, 256, true, true, false).
Proof. split; vm_compute; reflexivity. Qed.

(** C4 fails on a map of three levels (65537 rows, 2056 words).  Row-ids
    0 and 256 are allocated; releasing 256 answers true but clears the
    bit that marks row-id 0, because [__gstoreFdwAllocateRowId] keeps the
    third level 4 words behind the place where [__gstoreFdwReleaseRowId]
    and [gstoreFdwRowIdMapSize] have it; the next allocation returns
    row-id 0 again, which was never released, and row-id 0 itself cannot
    be released. *)
Lemma C4_row_id_allocated_twice :
  gstoreFdwRowIdMapSize_words 65537 = 2056 /\
  ('(m1, r1) ← gstoreFdwAllocateRowId (replicate 2056 0) 65537 0;
   '(m2, r2) ← gstoreFdwAllocateRowId m1 65537 256;
   let '(released0, _) := __gstoreFdwReleaseRowId m2 65537 0 in
   let '(released256, m3) := __gstoreFdwReleaseRowId m2 65537 256 in
   '(m4, r3) ← gstoreFdwAllocateRowId m3 65537 0;
   Some (r1, r2, released0, released256, r3))
  = Some (0, 256, false, true, 0).
Proof. split; vm_compute; reflexivity. Qed.

(** ** The primary-key hash index *)

Section LookupFacts.
Variable hash_proc : Datum -> Z.
Variable eq_opr : Datum -> Datum -> bool.
Variable hash_index : GpuStoreHashIndexHead.
Variable kds : kern_data_store.
Variable primary_key : Z.

(** The index as [gstoreFdwCreateBaseFile] lays it out and
    [gstoreFdwValidateBaseFile] accepts it: [nslots] heads and [nrooms]
    entries of 32 bits, for the rows of the store. *)
Record index_fits : Prop := {
  fits_rows : hi_nrooms hash_index = nrooms kds;
  fits_slots : 0 < hi_nslots hash_index;
  fits_rooms : 0 <= hi_nrooms hash_index;
  fits_length :
    Z.of_nat (length (slots hash_index)) = hi_nslots hash_index + hi_nrooms hash_index;
  fits_entries : Forall (fun v => 0 <= v) (slots hash_index)
}.

Definition no_match (key_value : Datum) (rowid : Z) : Prop :=
  match KDS_fetch_datum_column kds (primary_key - 1) rowid with
  | Some datum => eq_opr key_value datum = false
  | None => True
  end.

(** The chain that starts at [rowid] runs, over entries that do not hold
    the key, into a pointer at or beyond the capacity. *)
Inductive chain_leaves_range (key_value : Datum) : Z -> Prop :=
| leaves_here rowid :
    hi_nrooms hash_index <= rowid ->
    chain_leaves_range key_value rowid
| leaves_later rowid next :
    0 <= rowid < hi_nrooms hash_index ->
    no_match key_value rowid ->
    rowmap_get hash_index rowid = Some next ->
    chain_leaves_range key_value next ->
    chain_leaves_range key_value rowid.

Lemma array_get_in_range (a : list Z) i :
  0 <= i < Z.of_nat (length a) -> Forall (fun v => 0 <= v) a ->
  exists v, array_get a i = Some v /\ 0 <= v.
Proof.
  intros Hi Hall. unfold array_get.
  destruct (i <? 0) eqn:Hneg; [apply Z.ltb_lt in Hneg; lia | ].
  destruct (a !! Z.to_nat i) as [v | ] eqn:Hget.
  - exists v. split; [reflexivity | ].
    rewrite Forall_forall in Hall. apply Hall.
    apply list_elem_of_lookup. eauto.
  - apply lookup_ge_None in Hget. lia.
Qed.

Lemma walk_chain_leaves key_value rowid :
  index_fits -> chain_leaves_range key_value rowid ->
  exists n, forall fuel, (n <= fuel)%nat ->
    walk_chain eq_opr hash_index kds primary_key fuel key_value rowid = inl UINT_MAX.
Proof.
  intros Hfits Hchain.
  induction Hchain as [rowid Hout | rowid next Hin Hmiss Hnext _ [n IH]].
  - exists 1%nat. intros [ | fuel] Hfuel; [lia | ]. simpl.
    destruct (rowid =? UINT_MAX) eqn:Hend.
    + apply Z.eqb_eq in Hend. congruence.
    + apply Z.leb_le in Hout. rewrite Hout. reflexivity.
  - exists (S n). intros [ | fuel] Hfuel; [lia | ]. simpl.
    destruct (rowid =? UINT_MAX) eqn:Hend.
    { apply Z.eqb_eq in Hend. congruence. }
    destruct (hi_nrooms hash_index <=? rowid) eqn:Hout.
    { apply Z.leb_le in Hout. lia. }
    rewrite <- (fits_rows Hfits).
    destruct ((0 <=? rowid) && (rowid <? hi_nrooms hash_index)) eqn:Hbound; simpl.
    + rewrite Hnext. unfold no_match in Hmiss.
      destruct (KDS_fetch_datum_column kds (primary_key - 1) rowid).
      * rewrite Hmiss. apply IH. lia.
      * apply IH. lia.
    + apply andb_false_iff in Hbound as [Hb | Hb];
        [apply Z.leb_gt in Hb | apply Z.ltb_ge in Hb]; lia.
Qed.

Lemma walk_chain_in_bounds key_value fuel rowid :
  index_fits -> 0 <= rowid ->
  walk_chain eq_opr hash_index kds primary_key fuel key_value rowid <> inr OutOfBounds.
Proof.
  intros Hfits. revert rowid.
  induction fuel as [ | fuel IH]; intros rowid Hpos; simpl; [discriminate | ].
  destruct (rowid =? UINT_MAX); [discriminate | ].
  destruct (hi_nrooms hash_index <=? rowid) eqn:Hout; [discriminate | ].
  apply Z.leb_gt in Hout.
  rewrite <- (fits_rows Hfits).
  assert (Hbound : (0 <=? rowid) && (rowid <? hi_nrooms hash_index) = true).
  { apply andb_true_iff. split; [apply Z.leb_le | apply Z.ltb_lt]; lia. }
  rewrite Hbound. simpl.
  destruct (array_get_in_range (slots hash_index) (hi_nslots hash_index + rowid))
    as [next [Hnext Hnonneg]].
  { rewrite (fits_length Hfits). pose proof (fits_slots Hfits). lia. }
  { exact (fits_entries Hfits). }
  unfold rowmap_get. rewrite Hnext.
  destruct (KDS_fetch_datum_column kds (primary_key - 1) rowid) as [datum | ].
  - destruct (eq_opr key_value datum); [discriminate | apply IH; exact Hnonneg].
  - apply IH; exact Hnonneg.
Qed.

Lemma chain_start_in_bounds key_value last_rowid :
  index_fits -> 0 <= last_rowid ->
  exists rowid0, chain_start hash_proc hash_index key_value last_rowid = Some rowid0
                 /\ 0 <= rowid0.
Proof.
  intros Hfits Hlast. unfold chain_start.
  pose proof (fits_slots Hfits) as Hslots. pose proof (fits_rooms Hfits) as Hrooms.
  destruct (last_rowid =? UINT_MAX).
  - apply array_get_in_range; [ | exact (fits_entries Hfits)].
    rewrite (fits_length Hfits).
    pose proof (Z.mod_pos_bound (hash_proc key_value) (hi_nslots hash_index) Hslots).
    lia.
  - destruct (last_rowid <? hi_nrooms hash_index) eqn:Hin.
    + apply Z.ltb_lt in Hin. unfold rowmap_get.
      apply array_get_in_range; [ | exact (fits_entries Hfits)].
      rewrite (fits_length Hfits). lia.
    + exists UINT_MAX. split; [reflexivity | unfold UINT_MAX; lia].
Qed.

(** C10: when the chain walked by a lookup runs into a pointer at or
    beyond the capacity, the lookup returns [UINT_MAX] ("not found");
    and whatever the chain is, no array is read outside its bounds. *)
Theorem C10_lookup_out_of_range key_value last_rowid rowid0 :
  index_fits -> 0 <= last_rowid ->
  chain_start hash_proc hash_index key_value last_rowid = Some rowid0 ->
  chain_leaves_range key_value rowid0 ->
  (exists n, forall fuel, (n <= fuel)%nat ->
     lookupGpuStorePrimaryKey hash_proc eq_opr hash_index kds primary_key
       fuel key_value last_rowid = Returns UINT_MAX)
  /\
  (forall fuel,
     lookupGpuStorePrimaryKey hash_proc eq_opr hash_index kds primary_key
       fuel key_value last_rowid <> OutOfBounds).
Proof.
  intros Hfits Hlast Hstart Hchain. split.
  - destruct (walk_chain_leaves key_value rowid0 Hfits Hchain) as [n Hwalk].
    exists n. intros fuel Hfuel. unfold lookupGpuStorePrimaryKey.
    rewrite Hstart, (Hwalk fuel Hfuel). reflexivity.
  - intros fuel. unfold lookupGpuStorePrimaryKey.
    destruct (chain_start_in_bounds key_value last_rowid Hfits Hlast)
      as [r [Hr Hnonneg]].
    rewrite Hr.
    pose proof (walk_chain_in_bounds key_value fuel r Hfits Hnonneg) as Hsafe.
    destruct (walk_chain eq_opr hash_index kds primary_key fuel key_value r)
      as [rowid | e].
    + destruct (rowid =? UINT_MAX); discriminate.
    + intros ->. apply Hsafe. reflexivity.
Qed.

End LookupFacts.

Lemma sample_index_fits : index_fits sample_index sample_keys.
Proof.
  split; try reflexivity; try (simpl; lia).
  repeat constructor; unfold UINT_MAX; lia.
Qed.

Lemma C10_lookup_out_of_range_witness :
  (exists n, forall fuel, (n <= fuel)%nat ->
     lookupGpuStorePrimaryKey (fun key => key) Z.eqb sample_index sample_keys 1
       fuel 7 UINT_MAX = Returns UINT_MAX)
  /\
  (forall fuel,
     lookupGpuStorePrimaryKey (fun key => key) Z.eqb sample_index sample_keys 1
       fuel 7 UINT_MAX <> OutOfBounds).
Proof.
  apply (C10_lookup_out_of_range (fun key => key) Z.eqb sample_index sample_keys 1
           7 UINT_MAX 0 sample_index_fits).
  - unfold UINT_MAX. lia.
  - reflexivity.
  - apply (leaves_later Z.eqb sample_index sample_keys 1 7 0 9).
    + simpl. lia.
    + reflexivity.
    + reflexivity.
    + apply leaves_here. simpl. lia.
Defined.

(** On a chain that holds the key the function does not return: the
    statement after the loop spins on the row-id found. *)
Lemma lookup_found_spins :
  lookupGpuStorePrimaryKey (fun key => key) Z.eqb sample_index sample_keys 1
    5 3 UINT_MAX = Spins.
Proof. reflexivity. Qed.

(** ** Writing the REDO log *)

Section WriterFacts.
Import TxLog RedoLog.
Variable random : nat -> Z.
Variable GetCurrentTimestamp : Z.
Variable offsetof_htup : Z.
Variable head_bytes : log_type -> Z -> Z -> Z -> TransactionId -> list Z.
Variable tdtypeid : Z.
Variable tdtypmod : Z.










(** One round of the reservation loop. *)
Lemma append_retry_round fuel has_exclusive_lock r_log w :
  append_retry random GetCurrentTimestamp (S fuel) has_exclusive_lock r_log w
  = match (if bool_decide (redo_mmap (gs_desc w) = None)
              || negb (desc_redo_mmap_revision (gs_desc w)
                       =? redo_mmap_revision (gs_sstate w))
           then __gstoreFdwRemapRedoLog w else Ok w) with
    | Ok w1 =>
        let old_pos := redo_log_pos (gs_sstate w1) in
        let new_pos := old_pos + length r_log in
        if redo_log_limit (gs_sstate w1) <? new_pos then
          if has_exclusive_lock then
            match __gstoreFdwSwitchRedoLog random GetCurrentTimestamp w1 with
            | Ok w2 =>
                append_retry random GetCurrentTimestamp fuel has_exclusive_lock r_log w2
            | Elog msg w2 => Elog msg w2
            | Fault what => Fault what
            | NoFuel => NoFuel
            end
          else
            append_retry random GetCurrentTimestamp fuel true r_log
              (LWLockAcquire LW_EXCLUSIVE (LWLockRelease w1))
        else
          match redo_mmap (gs_desc w1) with
          | None => Fault "redo_mmap is NULL"
          | Some ino =>
              let inodes' :=
                match inodes (fs w1) !! ino with
                | Some f => <[ino := write_record f old_pos r_log]> (inodes (fs w1))
                | None => inodes (fs w1)
                end in
              Ok (LWLockRelease
                    (made (call_memcpy ino old_pos)
                       {| fs := {| dir := dir (fs w1); inodes := inodes' |};
                          gs_sstate := set_pos new_pos (gs_sstate w1);
                          gs_desc := gs_desc w1; rng := rng w1;
                          history := history w1 |}))
          end
    | Elog msg w1 => Elog msg w1
    | Fault what => Fault what
    | NoFuel => NoFuel
    end.
Proof. reflexivity. Qed.


(** A record of any kind but UPDATE is set up without a fault. *)
Lemma setup_other_than_update log_type rowid xid tuple updatedCols :
  log_type <> GSTORE_TX_LOG__UPDATE ->
  exists r_log,
    setup_GstoreTxLogRow GetCurrentTimestamp offsetof_htup head_bytes tdtypeid
      tdtypmod log_type rowid xid tuple updatedCols = inl r_log /\
    length r_log = r_len_of offsetof_htup tuple updatedCols.
Proof.
  intros Hne. unfold setup_GstoreTxLogRow.
  destruct log_type; try congruence; eexists; split; reflexivity.
Qed.

(** A record that does not fit an empty log: every round ends in
    another round or in an error. *)
Lemma append_retry_oversize fuel :
  forall has_exclusive_lock r_log w,
    redo_log_limit (gs_sstate w) < redo_log_pos (gs_sstate w) + length r_log ->
    redo_log_limit (gs_sstate w) < redo_head_sz + length r_log ->
    forall w', append_retry random GetCurrentTimestamp fuel has_exclusive_lock r_log w
               <> Ok w'.
Proof.
  induction fuel as [ | fuel IH]; intros excl r_log w Hpos Hhead w';
    [discriminate | ].
  rewrite append_retry_round.
  assert (Hremap : forall w1,
            (if bool_decide (redo_mmap (gs_desc w) = None)
                || negb (desc_redo_mmap_revision (gs_desc w)
                         =? redo_mmap_revision (gs_sstate w))
             then __gstoreFdwRemapRedoLog w else Ok w) = Ok w1 ->
            gs_sstate w1 = gs_sstate w).
  { intros w1. destruct (_ || _).
    - unfold __gstoreFdwRemapRedoLog.
      destruct (dir (fs w) !! redo_log_file (gs_sstate w)); [ | discriminate].
      intros [= <-]. reflexivity.
    - intros [= <-]. reflexivity. }
  destruct (if _ || _ then _ else _) as [w1 | msg w1 | what | ]; try discriminate.
  specialize (Hremap w1 eq_refl). cbv zeta. rewrite Hremap.
  apply Z.ltb_lt in Hpos as Hpos'. rewrite Hpos'.
  destruct excl.
  - unfold __gstoreFdwSwitchRedoLog.
    destruct (draw_until random draw_fuel _ (rng w1)) as [[r1 rng1] | ];
      [ | discriminate].
    destruct (draw_until random draw_fuel _ rng1) as [[r2 rng2] | ];
      [ | discriminate].
    destruct (_ !! redo_log_file (gs_sstate w1)); [ | discriminate].
    destruct (draw_until random draw_fuel _ rng2) as [[rev rng3] | ];
      [ | discriminate].
    apply IH; simpl; rewrite ?Hremap; assumption.
  - apply IH; simpl; rewrite ?Hremap; assumption.
Qed.


End WriterFacts.


(** ** Replaying the REDO log *)

Section ReplayFacts.
Import TxLog.
Variable VARSIZE_ANY : Datum -> Z.
Variable offsetof_data : Z.
Variable offsetof_htup : Z.
Variable expansion_fails : Z -> option string.

Lemma row_records_cons r recs :
  row_records (r :: recs)
  = if is_commit (type r) then row_records recs else r :: row_records recs.
Proof. unfold row_records. simpl. destruct (is_commit (type r)); reflexivity. Qed.

(** The loop of [__ApplyRedoLogMain] over a segment: the row records are
    applied to the base file one after the other in the order of the
    log, the COMMIT records are passed over, and the loop ends at the end
    of the segment, unless a record raises an error. *)
Lemma redo_loop_segment redo_mmap redo_mmap_sz pos recs end_pos :
  segment offsetof_data redo_mmap redo_mmap_sz pos recs end_pos ->
  forall fuel base_mmap, (List.length recs < fuel)%nat ->
    redo_loop VARSIZE_ANY offsetof_data offsetof_htup expansion_fails fuel
              redo_mmap redo_mmap_sz base_mmap pos
    = match apply_records VARSIZE_ANY offsetof_htup expansion_fails
              (row_records recs) base_mmap with
      | inl b => Replayed b end_pos
      | inr msg => ReplayElog msg
      end.
Proof.
  induction 1 as [pos Hend | pos recs end_pos Hin Hknown _ IH];
    intros [ | fuel] base_mmap Hfuel; simpl in Hfuel; try lia.
  - simpl. destruct Hend as [Hend | Hend].
    + apply Z.ltb_ge in Hend. rewrite Hend. reflexivity.
    + destruct (pos + offsetof_data <? redo_mmap_sz); [ | reflexivity].
      destruct (type (record_at redo_mmap pos)); try discriminate. reflexivity.
  - rewrite row_records_cons.
    simpl redo_loop. apply Z.ltb_lt in Hin. rewrite Hin.
    destruct (type (record_at redo_mmap pos)) eqn:Htype; try discriminate;
      simpl is_commit; cbv iota.
    1-3: simpl apply_records;
      destruct (apply_row_log VARSIZE_ANY offsetof_htup expansion_fails base_mmap
                  (record_at redo_mmap pos)) as [base1 | msg];
      [apply IH; lia | reflexivity].
    apply IH. lia.
Qed.

(** The system column is never missing: an UPDATE is applied without an
    error. *)
Lemma ApplyRedoLogUpdate_inl kds r :
  __ApplyRedoLogUpdate VARSIZE_ANY kds r
  = inl (match __ApplyRedoLogUpdate VARSIZE_ANY kds r with
         | inl kds' => kds'
         | inr _ => kds
         end).
Proof. reflexivity. Qed.

(** A row record raises an error only when an expansion of the extra
    buffer fails. *)
Lemma apply_row_log_error base_mmap r msg :
  known_type (type r) = true -> is_commit (type r) = false ->
  apply_row_log VARSIZE_ANY offsetof_htup expansion_fails base_mmap r = inr msg ->
  exists sz, expansion_fails sz = Some msg.
Proof.
  intros Hknown Hrow. unfold apply_row_log.
  match goal with
  | |- context [if ?c then ?a else inl base_mmap] =>
      destruct c; [ | destruct (type r); discriminate]
  end.
  match goal with
  | |- context [if ?c then ?a else inl base_mmap] =>
      destruct c; [ | destruct (type r); discriminate]
  end.
  unfold expand_extra_buffer.
  match goal with
  | |- context [expansion_fails ?sz] =>
      destruct (expansion_fails sz) as [m | ] eqn:Hfail
  end.
  - intros [= <-]. eauto.
  - destruct (type r); discriminate.
Qed.

Lemma apply_records_error recs base_mmap msg :
  Forall (fun r => known_type (type r) = true /\ is_commit (type r) = false) recs ->
  apply_records VARSIZE_ANY offsetof_htup expansion_fails recs base_mmap = inr msg ->
  exists sz, expansion_fails sz = Some msg.
Proof.
  revert base_mmap. induction recs as [ | r recs IH]; intros base_mmap Hall;
    [discriminate | ].
  apply Forall_cons in Hall as [[Hk Hr] Hall]. simpl.
  destruct (apply_row_log VARSIZE_ANY offsetof_htup expansion_fails base_mmap r)
    as [base1 | m] eqn:Happly.
  - apply IH. exact Hall.
  - intros [= <-]. apply (apply_row_log_error base_mmap r m Hk Hr Happly).
Qed.

Lemma segment_known redo_mmap redo_mmap_sz pos recs end_pos :
  segment offsetof_data redo_mmap redo_mmap_sz pos recs end_pos ->
  Forall (fun r => known_type (type r) = true) recs.
Proof.
  induction 1 as [pos Hend | pos recs end_pos Hin Hknown _ IH]; constructor;
    assumption.
Qed.

Lemma row_records_kinds recs :
  Forall (fun r => known_type (type r) = true) recs ->
  Forall (fun r => known_type (type r) = true /\ is_commit (type r) = false)
         (row_records recs).
Proof.
  induction 1 as [ | r recs Hr _ IH]; [constructor | ].
  rewrite row_records_cons. destruct (is_commit (type r)) eqn:Hc; [exact IH | ].
  constructor; [split; assumption | exact IH].
Qed.

End ReplayFacts.

(** C1 fails: a base file that was left mapped is recovered from a log
    that inserts row 0.  After the recovery row 0 is there (its [xmin] is
    the first word of the tuple header of the record, its column holds
    7), but the row-id map and the hash index are the ones of before the
    replay: neither knows the row, and the allocator hands out row-id
    0. *)
Lemma C1_recovery_rebuilds_nothing :
  basefile_is_sanity sample_base = Some false /\
  ('(b, _) ← replayed (gstoreFdwApplyRedoLog (fun _ => 16) 8 24 expansion_succeeds
                         10 sample_base log_one_insert 4096 false);
   '(_, rowid) ← gstoreFdwAllocateRowId (rowid_map_base (rowid_map b))
                   (rowid_map_nrooms (rowid_map b)) 0;
   Some (xmin (sysattr_at (schema b) 0), cells (schema b) !! (0, 0),
         rowid_map_base (rowid_map b), slots <$> hash_index b, rowid))
  = Some (128, Some 7, [0; 0; 0; 0], Some (replicate 6 UINT_MAX), 0).
Proof. split; vm_compute; reflexivity. Qed.

(** C6 fails where the fixed sections of the base file are longer than
    64MB: the record needs more of the extra buffer than there is (40
    bytes behind the 640001024 in use), but [posix_fallocate(rawfd, 0,
    sz)] is given the bytes needed of the extra buffer plus 64MB, not the
    place where they end in the file; that is below the size the file has,
    so the file and [extra_hlength] stay as they are and the record is
    applied to a buffer that is full: [usage] ends behind
    [extra_hlength]. *)
Lemma C6_extra_buffer_not_expanded :
  extra_hlength (schema base_extra_full)
  < u64 (u64 (TxLog.length (sample_record TxLog.GSTORE_TX_LOG__INSERT 0 0 5 0) - 24)
         + usage (schema base_extra_full)) /\
  ('(b, redo_pos) ← replayed
                      (__ApplyRedoLogMain (fun _ => 16) 8 24 expansion_succeeds 10
                         base_extra_full
                         (sample_log {[ 24 := sample_record
                                                TxLog.GSTORE_TX_LOG__INSERT 0 0 5 0 ]})
                         4096);
   Some (redo_pos, base_mmap_sz b, extra_hlength (schema b), usage (schema b)))
  = Some (88, base_mmap_sz base_extra_full, 640001024, 640001040).
Proof. split; vm_compute; reflexivity. Qed.


(** ** Sequences of assignments that read what none of them writes *)

Section AssignFacts.
Context {L V : Type}.
Implicit Types (f g : L -> V) (steps : list (@assignment L V)).




Lemma run_ext steps f g :
  reads_untouched steps -> (forall l, f l = g l) -> forall l, run steps f l = run steps g l.
Proof.
  intros Hreads Hfg.
  assert (Hgen : forall rest, (forall s, s ∈ rest -> s ∈ steps) ->
                 forall f g, (forall l, f l = g l) -> forall l, run rest f l = run rest g l).
  { induction rest as [ | s rest IH]; intros Hsub f' g' Heq l; [apply Heq | ].
    unfold run. simpl. apply IH.
    - intros s' Hs'. apply Hsub. right. exact Hs'.
    - intros l'. unfold assign. rewrite Heq.
      destruct (s.1 l'); [ | reflexivity].
      apply (Hreads s); [apply Hsub; left | ]. intros l'' _. apply Heq. }
  apply Hgen; auto.
Qed.

End AssignFacts.

(** ** Replaying a segment twice *)

Section StoreFacts.
Import TxLog.
Variable VARSIZE_ANY : Datum -> Z.

Lemma cells_store kds j row d p :
  cells (KDS_store_datum_column VARSIZE_ANY kds j row d) !! p
  = if decide (p = (j, row)) then d else cells kds !! p.
Proof.
  unfold KDS_store_datum_column. destruct d as [d | ].
  - destruct (default 0 (colmeta kds !! Z.to_nat j) =? -1); simpl;
      rewrite lookup_insert; repeat case_decide; congruence.
  - simpl. rewrite lookup_delete. repeat case_decide; congruence.
Qed.

Lemma syscol_store kds j row d :
  syscol (KDS_store_datum_column VARSIZE_ANY kds j row d) = syscol kds.
Proof.
  unfold KDS_store_datum_column. destruct d; [ | reflexivity].
  destruct (_ =? -1); reflexivity.
Qed.

(** What a replay never changes, on a store without columns of variable
    length. *)
Definition same_frame (k k' : kern_data_store) : Prop :=
  nrooms k' = nrooms k /\ nitems k' = nitems k /\ colmeta k' = colmeta k /\
  has_varlena k' = has_varlena k /\ usage k' = usage k /\
  extra_hoffset k' = extra_hoffset k /\ extra_hlength k' = extra_hlength k.

Lemma same_frame_refl k : same_frame k k.
Proof. repeat split. Qed.

Lemma same_frame_trans k1 k2 k3 : same_frame k1 k2 -> same_frame k2 k3 -> same_frame k1 k3.
Proof. unfold same_frame. intuition congruence. Qed.

Lemma not_varlena (meta : list Z) j :
  Forall (fun attlen => attlen <> -1) meta -> (default 0 (meta !! Z.to_nat j) =? -1) = false.
Proof.
  intros Hall. apply Z.eqb_neq.
  destruct (meta !! Z.to_nat j) as [a | ] eqn:Hget; simpl; [ | lia].
  rewrite Forall_forall in Hall. apply Hall. apply list_elem_of_lookup. eauto.
Qed.

Lemma same_frame_store kds j row d :
  Forall (fun attlen => attlen <> -1) (colmeta kds) ->
  same_frame kds (KDS_store_datum_column VARSIZE_ANY kds j row d).
Proof.
  intros Hall. unfold KDS_store_datum_column. destruct d; [ | repeat split].
  rewrite not_varlena by exact Hall. repeat split.
Qed.

Lemma same_frame_set_sysattr kds row s : same_frame kds (set_sysattr kds row s).
Proof. repeat split. Qed.

Section Fold.
Variable c : Z -> bool.
Variable v : Z -> option Datum.
Variables old row : Z.

Definition store_column (k : kern_data_store) (j : Z) : kern_data_store :=
  KDS_store_datum_column VARSIZE_ANY k j row
    (if c j then KDS_fetch_datum_column k j old else v j).

Lemma fold_store_cells js k j0 row0 :
  NoDup js ->
  cells (fold_left store_column js k) !! (j0, row0)
  = if (row0 =? row) && bool_decide (j0 ∈ js)
    then (if c j0 then cells k !! (j0, old) else v j0)
    else cells k !! (j0, row0).
Proof.
  revert k. induction js as [ | j js IH]; intros k Hnodup.
  - simpl. rewrite andb_false_r. reflexivity.
  - apply NoDup_cons in Hnodup as [Hj Hnodup]. simpl fold_left.
    assert (Hk1 : forall p, cells (store_column k j) !! p
                  = if decide (p = (j, row))
                    then (if c j then cells k !! (j, old) else v j)
                    else cells k !! p).
    { intros p. unfold store_column. apply cells_store. }
    rewrite IH by exact Hnodup. rewrite !Hk1.
    destruct (row0 =? row) eqn:Hrow; simpl.
    + apply Z.eqb_eq in Hrow. subst row0.
      destruct (bool_decide (j0 ∈ js)) eqn:Hin.
      * apply bool_decide_eq_true in Hin.
        assert (j0 <> j) by (intros ->; contradiction).
        rewrite bool_decide_eq_true_2 by (right; exact Hin).
        destruct (c j0); [ | reflexivity].
        case_decide; [congruence | reflexivity].
      * apply bool_decide_eq_false in Hin.
        case_decide as Heq.
        -- injection Heq as ->. rewrite bool_decide_eq_true_2 by left. reflexivity.
        -- rewrite bool_decide_eq_false_2; [reflexivity | ].
           intros Hin'. apply elem_of_cons in Hin' as [-> | Hin'];
             [apply Heq; reflexivity | exact (Hin Hin')].
    + apply Z.eqb_neq in Hrow.
      destruct (decide ((j0, row0) = (j, row))) as [Heq | _]; [congruence | ].
      destruct (bool_decide (j0 ∈ js)); reflexivity.
Qed.

Lemma fold_store_syscol js k : syscol (fold_left store_column js k) = syscol k.
Proof.
  revert k. induction js as [ | j js IH]; intros k; [reflexivity | ].
  simpl. rewrite IH. apply syscol_store.
Qed.

Lemma fold_store_frame js k :
  Forall (fun attlen => attlen <> -1) (colmeta k) ->
  same_frame k (fold_left store_column js k).
Proof.
  revert k. induction js as [ | j js IH]; intros k Hall; [apply same_frame_refl | ].
  simpl. pose proof (same_frame_store k j row
                       (if c j then KDS_fetch_datum_column k j old else v j) Hall) as Hf.
  eapply same_frame_trans; [exact Hf | ]. apply IH.
  destruct Hf as (_ & _ & Hmeta & _). unfold store_column. rewrite Hmeta. exact Hall.
Qed.

End Fold.

End StoreFacts.

(** ** More on visibility *)

Section VisibilityMore.
Variable env : XactEnv.

(** A row that the check for readers shows is never reported reclaimable
    by the check for writers, whatever the command id and the horizon. *)
Theorem visible_row_is_not_reclaimable sysattr curr_cid oldestXmin :
  XactEnv_sane env ->
  fst (__gstoreCheckVisibilityForRead env sysattr curr_cid) = true ->
  fst (CheckVisibilityForWrite_sysattr env sysattr oldestXmin) = false.
Proof.
  intros [Hcur Hinv Hinvc].
  unfold __gstoreCheckVisibilityForRead, read_xmin_phase, read_xmax_phase,
    CheckVisibilityForWrite_sysattr, write_xmin_phase, write_xmax_phase.
  destruct (xmin sysattr =? FrozenTransactionId) eqn:Hfrozen; simpl.
  - (* the insertion is frozen *)
    destruct (xmax sysattr =? InvalidTransactionId) eqn:Hlive; simpl; [reflexivity | ].
    destruct (xmax sysattr =? FrozenTransactionId) eqn:Hdead; simpl; [discriminate | ].
    destruct (TransactionIdIsCurrentTransactionId env (xmax sysattr)) eqn:Hdel.
    + rewrite (Hcur _ Hdel). reflexivity.
    + destruct (TransactionIdIsInProgress env (xmax sysattr)); [reflexivity | ].
      destruct (TransactionIdDidCommit env (xmax sysattr)); discriminate.
  - destruct (xmin sysattr =? InvalidTransactionId) eqn:Hnone.
    { (* nobody wrote the row: it is not visible *)
      apply Z.eqb_eq in Hnone. rewrite Hnone, Hinv, Hinvc. simpl.
      destruct (TransactionIdIsInProgress env InvalidTransactionId); discriminate. }
    destruct (TransactionIdIsCurrentTransactionId env (xmin sysattr)) eqn:Hown;
      [reflexivity | ].
    destruct (TransactionIdIsInProgress env (xmin sysattr)) eqn:Hprog.
    { destruct (TransactionIdDidCommit env (xmin sysattr)); reflexivity. }
    destruct (TransactionIdDidCommit env (xmin sysattr)) eqn:Hcommit; simpl;
      [ | discriminate].
    destruct (xmax sysattr =? InvalidTransactionId) eqn:Hlive; simpl; [reflexivity | ].
    destruct (xmax sysattr =? FrozenTransactionId) eqn:Hdead; simpl; [discriminate | ].
    destruct (TransactionIdIsCurrentTransactionId env (xmax sysattr)) eqn:Hdel.
    + rewrite (Hcur _ Hdel). reflexivity.
    + destruct (TransactionIdIsInProgress env (xmax sysattr)); [reflexivity | ].
      destruct (TransactionIdDidCommit env (xmax sysattr)); discriminate.
Qed.

(** What the check for readers writes into the row: never [cid]; [xmin]
    becomes frozen only for an inserter that has committed, and invalid
    only for an inserter that is not current, has not committed and is
    not in progress; [xmax] likewise for the deleter. *)
Theorem read_check_freezes_soundly sysattr curr_cid :
  let after := snd (__gstoreCheckVisibilityForRead env sysattr curr_cid) in
  cid after = cid sysattr
  /\ (xmin after = xmin sysattr
      \/ (xmin after = FrozenTransactionId /\
          TransactionIdDidCommit env (xmin sysattr) = true)
      \/ (xmin after = InvalidTransactionId /\
          TransactionIdIsCurrentTransactionId env (xmin sysattr) = false /\
          TransactionIdDidCommit env (xmin sysattr) = false /\
          TransactionIdIsInProgress env (xmin sysattr) = false))
  /\ (xmax after = xmax sysattr
      \/ (xmax after = FrozenTransactionId /\
          TransactionIdDidCommit env (xmax sysattr) = true)
      \/ (xmax after = InvalidTransactionId /\
          TransactionIdIsCurrentTransactionId env (xmax sysattr) = false /\
          TransactionIdDidCommit env (xmax sysattr) = false /\
          TransactionIdIsInProgress env (xmax sysattr) = false)).
Proof.
  unfold __gstoreCheckVisibilityForRead, read_xmin_phase, read_xmax_phase.
  destruct (xmin sysattr =? FrozenTransactionId) eqn:Hfrozen; simpl;
    [ | destruct (TransactionIdIsCurrentTransactionId env (xmin sysattr)) eqn:Hown;
        [ destruct (curr_cid <=? cid sysattr);
          [ | destruct (xmax sysattr =? InvalidTransactionId);
              [ | destruct (xmax sysattr =? FrozenTransactionId);
                  [ | destruct (TransactionIdIsCurrentTransactionId env (xmax sysattr))
                        eqn:Hdel ] ] ]
        | destruct (TransactionIdDidCommit env (xmin sysattr)) eqn:Hcommit;
          [ | destruct (TransactionIdIsInProgress env (xmin sysattr)) eqn:Hprog ] ] ];
    simpl; try (repeat split; auto 10; fail).
  all: destruct (xmax sysattr =? InvalidTransactionId);
    [ simpl; repeat split; auto 10 | ].
  all: destruct (xmax sysattr =? FrozenTransactionId); simpl;
    [ repeat split; auto 10 | ].
  all: destruct (TransactionIdIsCurrentTransactionId env (xmax sysattr)) eqn:Hdel';
    [ destruct (curr_cid <=? cid sysattr); simpl; repeat split; auto 10 | ].
  all: destruct (TransactionIdIsInProgress env (xmax sysattr)) eqn:Hprog';
    [ simpl; repeat split; auto 10 | ].
  all: destruct (TransactionIdDidCommit env (xmax sysattr)) eqn:Hcommit';
    simpl; repeat split; auto 10.
Qed.

End VisibilityMore.

Lemma env_running_sane : XactEnv_sane env_running.
Proof.
  split; [ | reflexivity | reflexivity].
  intros x Hx. exact Hx.
Qed.

Lemma visible_row_is_not_reclaimable_witness :
  fst (CheckVisibilityForWrite_sysattr env_running
         {| xmin := 100; xmax := 200; cid := 5 |} 300) = false.
Proof.
  apply (visible_row_is_not_reclaimable env_running
           {| xmin := 100; xmax := 200; cid := 5 |} 3 300 env_running_sane).
  reflexivity.
Defined.

(** ** More on releasing a row-id *)

Section ReleaseMore.

Lemma clear_bit_other (m : list Z) i b j c :
  0 <= i -> 0 <= j -> 0 <= b -> 0 <= c -> i <> j \/ b <> c ->
  Z.testbit (rd (clear_bit m j c) i) b = Z.testbit (rd m i) b.
Proof.
  intros Hi Hj Hb Hc Hne. unfold clear_bit.
  destruct (Z.eq_dec j i) as [-> | Hji].
  - destruct Hne as [Hne | Hne]; [congruence | ].
    rewrite rd_wr_same by assumption.
    destruct (Z.lt_ge_cases b 64) as [Hlow | Hhigh].
    + rewrite u64_testbit by lia. rewrite Z.land_spec, testbit_not64_one by lia.
      destruct (Z.eqb_spec c b); [congruence | ]. apply andb_true_r.
    + rewrite u64_testbit_high by exact Hhigh. symmetry.
      unfold rd. apply u64_testbit_high. exact Hhigh.
  - rewrite rd_wr_other by assumption. reflexivity.
Qed.

Lemma path_index_nonneg L d rowid : 0 <= rowid -> 0 <= path_index L d rowid.
Proof. intros Hr. unfold path_index. apply Z.shiftr_nonneg. exact Hr. Qed.

Lemma level_start_nonneg d : 0 <= level_start d.
Proof.
  unfold level_start. change (Z.shiftl 4 8) with 1024.
  change (Z.shiftl 4 16) with 262144.
  destruct (d =? 0), (d =? 1), (d =? 2); lia.
Qed.

Lemma path_word_nonneg L d rowid : 0 <= rowid -> 0 <= path_word L d rowid.
Proof.
  intros Hr. unfold path_word.
  pose proof (level_start_nonneg d).
  pose proof (path_index_nonneg L d rowid Hr).
  assert (0 <= Z.shiftr (path_index L d rowid) 6) by (apply Z.shiftr_nonneg; lia).
  lia.
Qed.

Lemma path_pos_range L d rowid : 0 <= path_pos L d rowid < 64.
Proof. apply land_63_range. Qed.

(** The four cases of [__gstoreFdwReleaseRowId] are one: test the leaf
    bit, then clear the path from the root down. *)
Lemma release_unfold m nrooms rowid :
  __gstoreFdwReleaseRowId m nrooms rowid
  = if (rowid <? nrooms) && leaf_bit m nrooms rowid
    then (true, clear_path m (levels nrooms) rowid)
    else (false, m).
Proof.
  pose proof (land_63_range rowid) as Hlo.
  unfold __gstoreFdwReleaseRowId, leaf_bit, levels.
  destruct (rowid <? nrooms); [ | reflexivity].
  rewrite andb_true_l.
  destruct (nrooms <=? 2 ^ 8) eqn:H1; [ | destruct (nrooms <=? 2 ^ 16) eqn:H2;
    [ | destruct (nrooms <=? 2 ^ 24) eqn:H3 ] ];
    rewrite bit_is_clear_spec by lia;
    unfold clear_path, path_word, path_pos, path_bit, bit_of, path_index;
    match goal with
    | |- context [seqZ 0 ?n] =>
        let l := eval vm_compute in (seqZ 0 n) in change (seqZ 0 n) with l
    end;
    cbv [fold_left];
    rewrite ?Z.shiftr_shiftr by lia;
    match goal with
    | |- (if negb ?a then _ else _) = (if ?b then _ else _) =>
        change b with a; destruct a; reflexivity
    end.
Qed.

Lemma levels_range nrooms : 1 <= levels nrooms <= 4.
Proof.
  unfold levels.
  destruct (nrooms <=? 2 ^ 8), (nrooms <=? 2 ^ 16), (nrooms <=? 2 ^ 24); lia.
Qed.

Lemma shiftr_le_shiftr z a b : 0 <= z -> 0 <= a <= b -> Z.shiftr z b <= Z.shiftr z a.
Proof.
  intros Hz Hab. rewrite !Z.shiftr_div_pow2 by lia.
  apply Z.div_le_compat_l; [exact Hz | ]. split; [lia | ].
  apply Z.pow_le_mono_r; lia.
Qed.

(** The levels lie one behind the other: on the path to a row-id below
    [nrooms], no word comes behind the word of the leaf. *)
Lemma path_word_le_leaf nrooms rowid d :
  0 <= rowid < nrooms -> 0 <= d < levels nrooms ->
  path_word (levels nrooms) d rowid
  <= path_word (levels nrooms) (levels nrooms - 1) rowid.
Proof.
  intros Hr Hd. unfold path_word, path_index, level_start, levels in *.
  change (Z.shiftl 4 8) with 1024. change (Z.shiftl 4 16) with 262144.
  assert (H6 : 0 <= Z.shiftr rowid 6) by (apply Z.shiftr_nonneg; lia).
  destruct (nrooms <=? 2 ^ 8) eqn:H1; [ | destruct (nrooms <=? 2 ^ 16) eqn:H2;
    [ | destruct (nrooms <=? 2 ^ 24) eqn:H3 ] ].
  - assert (d = 0) as -> by lia. reflexivity.
  - apply Z.leb_le in H2.
    assert (d = 0 \/ d = 1) as [-> | ->] by lia; [ | reflexivity].
    change (8 * (2 - 1 - 0)) with 8. change (8 * (2 - 1 - (2 - 1))) with 0.
    rewrite Z.shiftr_shiftr, Z.shiftr_0_r by lia. change (8 + 6) with 14.
    change (0 =? 0) with true. change (2 - 1 =? 0) with false.
    change (2 - 1 =? 1) with true. cbv iota.
    pose proof (shiftr_lt rowid 14 2 ltac:(change (2 ^ (14 + 2)) with 65536; lia)
                  ltac:(lia) ltac:(lia)).
    change (2 ^ 2) with 4 in *. lia.
  - apply Z.leb_le in H3.
    assert (d = 0 \/ d = 1 \/ d = 2) as [-> | [-> | ->]] by lia; [ | | reflexivity].
    + change (8 * (3 - 1 - 0)) with 16. change (8 * (3 - 1 - (3 - 1))) with 0.
      rewrite Z.shiftr_shiftr, Z.shiftr_0_r by lia. change (16 + 6) with 22.
      change (0 =? 0) with true. change (3 - 1 =? 0) with false.
      change (3 - 1 =? 1) with false. change (3 - 1 =? 2) with true. cbv iota.
      pose proof (shiftr_lt rowid 22 2 ltac:(change (2 ^ (22 + 2)) with 16777216; lia)
                    ltac:(lia) ltac:(lia)).
      change (2 ^ 2) with 4 in *. lia.
    + change (8 * (3 - 1 - 1)) with 8. change (8 * (3 - 1 - (3 - 1))) with 0.
      rewrite Z.shiftr_shiftr, Z.shiftr_0_r by lia. change (8 + 6) with 14.
      change (1 =? 0) with false. change (1 =? 1) with true.
      change (3 - 1 =? 0) with false.
      change (3 - 1 =? 1) with false. change (3 - 1 =? 2) with true. cbv iota.
      pose proof (shiftr_lt rowid 14 10 ltac:(change (2 ^ (14 + 10)) with 16777216; lia)
                    ltac:(lia) ltac:(lia)).
      change (2 ^ 10) with 1024 in *. lia.
  - assert (d = 0 \/ d = 1 \/ d = 2 \/ d = 3) as [-> | [-> | [-> | ->]]] by lia;
      [ | | | reflexivity].
    + change (8 * (4 - 1 - 0)) with 24. change (8 * (4 - 1 - (4 - 1))) with 0.
      rewrite Z.shiftr_shiftr, Z.shiftr_0_r by lia. change (24 + 6) with 30.
      change (0 =? 0) with true. change (4 - 1 =? 0) with false.
      change (4 - 1 =? 1) with false. change (4 - 1 =? 2) with false. cbv iota.
      pose proof (shiftr_le_shiftr rowid 6 30 ltac:(lia) ltac:(lia)). lia.
    + change (8 * (4 - 1 - 1)) with 16. change (8 * (4 - 1 - (4 - 1))) with 0.
      rewrite Z.shiftr_shiftr, Z.shiftr_0_r by lia. change (16 + 6) with 22.
      change (1 =? 0) with false. change (1 =? 1) with true.
      change (4 - 1 =? 0) with false.
      change (4 - 1 =? 1) with false. change (4 - 1 =? 2) with false. cbv iota.
      pose proof (shiftr_le_shiftr rowid 6 22 ltac:(lia) ltac:(lia)). lia.
    + change (8 * (4 - 1 - 2)) with 8. change (8 * (4 - 1 - (4 - 1))) with 0.
      rewrite Z.shiftr_shiftr, Z.shiftr_0_r by lia. change (8 + 6) with 14.
      change (2 =? 0) with false. change (2 =? 1) with false.
      change (2 =? 2) with true.
      change (4 - 1 =? 0) with false.
      change (4 - 1 =? 1) with false. change (4 - 1 =? 2) with false. cbv iota.
      pose proof (shiftr_le_shiftr rowid 6 14 ltac:(lia) ltac:(lia)). lia.
Qed.

(** A leaf bit that is set lies in a word of the list, and so do the
    words of the levels above it. *)
Lemma path_words_in_range m nrooms rowid d :
  0 <= rowid < nrooms -> leaf_bit m nrooms rowid = true ->
  0 <= d < levels nrooms ->
  (Z.to_nat (path_word (levels nrooms) d rowid) < List.length m)%nat.
Proof.
  intros Hr Hleaf Hd.
  assert (Hin : (Z.to_nat (path_word (levels nrooms) (levels nrooms - 1) rowid)
                 < List.length m)%nat).
  { apply rd_nonzero_in_range. intros Hzero.
    unfold leaf_bit, path_bit, bit_of in Hleaf.
    fold (path_word (levels nrooms) (levels nrooms - 1) rowid) in Hleaf.
    rewrite Hzero, Z.bits_0 in Hleaf. discriminate. }
  pose proof (path_word_le_leaf nrooms rowid d Hr Hd).
  pose proof (path_word_nonneg (levels nrooms) d rowid ltac:(lia)).
  lia.
Qed.

Lemma length_clear_path m nrooms rowid :
  0 <= rowid < nrooms -> leaf_bit m nrooms rowid = true ->
  List.length (clear_path m (levels nrooms) rowid) = List.length m.
Proof.
  intros Hr Hleaf. unfold clear_path.
  assert (Hds : forall d, d ∈ seqZ 0 (levels nrooms) ->
                (Z.to_nat (path_word (levels nrooms) d rowid) < List.length m)%nat).
  { intros d Hd. apply elem_of_seqZ in Hd.
    apply path_words_in_range; [assumption | assumption | lia]. }
  revert Hds. generalize (seqZ 0 (levels nrooms)). intros ds.
  generalize (levels nrooms). intros L.
  clear Hr Hleaf. revert m.
  induction ds as [ | d ds IH]; intros m Hds; simpl; [reflexivity | ].
  assert (Hd : (Z.to_nat (path_word L d rowid) < List.length m)%nat)
    by (apply Hds; left).
  rewrite IH.
  - apply length_clear_bit. exact Hd.
  - intros d' Hd'. rewrite length_clear_bit by exact Hd. apply Hds. right. exact Hd'.
Qed.

Lemma clear_path_off_path m L rowid i b :
  0 <= rowid -> 0 <= i -> 0 <= b ->
  (forall d, 0 <= d < L -> i <> path_word L d rowid \/ b <> path_pos L d rowid) ->
  Z.testbit (rd (clear_path m L rowid) i) b = Z.testbit (rd m i) b.
Proof.
  intros Hr Hi Hb Hoff. unfold clear_path.
  assert (Hds : forall d, d ∈ seqZ 0 L -> 0 <= d < L).
  { intros d Hd. apply elem_of_seqZ in Hd. lia. }
  revert Hds. generalize (seqZ 0 L). intros ds. revert m.
  induction ds as [ | d ds IH]; intros m Hds; simpl; [reflexivity | ].
  rewrite IH by (intros d' Hd'; apply Hds; apply elem_of_cons; right; exact Hd').
  apply clear_bit_other; try assumption.
  - apply path_word_nonneg. exact Hr.
  - apply path_pos_range.
  - apply Hoff. apply Hds. apply elem_of_cons. left. reflexivity.
Qed.

Lemma clear_path_sets_nothing m L rowid i b :
  0 <= rowid -> 0 <= i -> 0 <= b ->
  Z.testbit (rd m i) b = false ->
  Z.testbit (rd (clear_path m L rowid) i) b = false.
Proof.
  intros Hr Hi Hb. unfold clear_path. generalize (seqZ 0 L). intros ds. revert m.
  induction ds as [ | d ds IH]; intros m Hclear; simpl; [exact Hclear | ].
  apply IH. apply clear_bit_keeps_clear; try assumption.
  apply path_word_nonneg. exact Hr.
Qed.

(** Releasing a row-id keeps the length of the map, sets no bit, and
    changes no bit other than those of the path from the root to the leaf
    bit of the row-id. *)
Theorem release_touches_only_the_path (m : list Z) (nrooms rowid i b : Z) :
  0 <= rowid -> 0 <= i -> 0 <= b ->
  let m' := gstoreFdwReleaseRowId m nrooms rowid in
  length m' = length m
  /\ (Z.testbit (rd m i) b = false -> Z.testbit (rd m' i) b = false)
  /\ ((forall d, 0 <= d < levels nrooms ->
         i <> path_word (levels nrooms) d rowid \/
         b <> path_pos (levels nrooms) d rowid) ->
      Z.testbit (rd m' i) b = Z.testbit (rd m i) b).
Proof.
  intros Hr Hi Hb. unfold gstoreFdwReleaseRowId. rewrite release_unfold.
  destruct (rowid <? nrooms) eqn:Hlt; simpl; [ | auto].
  destruct (leaf_bit m nrooms rowid) eqn:Hleaf; simpl; [ | auto].
  apply Z.ltb_lt in Hlt.
  split; [apply length_clear_path; [lia | exact Hleaf] | ]. split.
  - apply clear_path_sets_nothing; assumption.
  - apply clear_path_off_path; assumption.
Qed.

Lemma leaf_word_fits nrooms rowid :
  0 <= rowid < nrooms ->
  path_word (levels nrooms) (levels nrooms - 1) rowid
  < gstoreFdwRowIdMapSize_words nrooms.
Proof.
  intros Hr. pose proof (leaf_word_in_range nrooms rowid Hr) as Hleaf.
  unfold path_word, path_index, levels, level_start, gstoreFdwRowIdMapSize_words.
  change (Z.shiftl 4 8) with 1024. change (Z.shiftl 4 16) with 262144.
  destruct (nrooms <=? 2 ^ 8) eqn:H1; [ | destruct (nrooms <=? 2 ^ 16) eqn:H2;
    [ | destruct (nrooms <=? 2 ^ 24) eqn:H3 ] ]; simpl;
    rewrite Z.shiftr_0_r.
  - apply Z.leb_le in H1.
    assert (Z.shiftr rowid 6 < 4); [ | lia].
    rewrite Z.shiftr_div_pow2 by lia. apply Z.div_lt_upper_bound; lia.
  - lia.
  - lia.
  - lia.
Qed.

(** After the path has been cleared, the bit of every level on it is
    clear. *)
Lemma clear_path_clears m L rowid d :
  0 <= rowid -> 0 <= d < L ->
  Z.testbit (rd (clear_path m L rowid) (path_word L d rowid)) (path_pos L d rowid)
  = false.
Proof.
  intros Hr Hd. unfold clear_path.
  assert (Hin : d ∈ seqZ 0 L) by (apply elem_of_seqZ; lia).
  revert Hin. generalize (seqZ 0 L). intros ds. revert m.
  induction ds as [ | d' ds IH]; intros m Hin; [inversion Hin | ].
  simpl. apply elem_of_cons in Hin as [-> | Hin].
  - assert (Hnow : Z.testbit (rd (clear_bit m (path_word L d' rowid)
                                             (path_pos L d' rowid))
                                  (path_word L d' rowid)) (path_pos L d' rowid)
                   = false).
    { apply clear_bit_clears;
        [apply path_word_nonneg; exact Hr | apply path_pos_range]. }
    revert Hnow. generalize (clear_bit m (path_word L d' rowid) (path_pos L d' rowid)).
    clear IH. induction ds as [ | e ds IH]; intros m1 Hnow; simpl; [exact Hnow | ].
    apply IH. apply clear_bit_keeps_clear; try assumption.
    + apply path_word_nonneg. exact Hr.
    + apply path_word_nonneg. exact Hr.
    + apply path_pos_range.
  - apply IH. exact Hin.
Qed.

Lemma clear_path_clears_leaf m nrooms rowid :
  0 <= rowid ->
  leaf_bit (clear_path m (levels nrooms) rowid) nrooms rowid = false.
Proof.
  intros Hr. pose proof (levels_range nrooms) as HL.
  unfold leaf_bit, path_bit, bit_of.
  apply (clear_path_clears m (levels nrooms) rowid (levels nrooms - 1)); lia.
Qed.

(** Releasing the same row-id a second time answers false and leaves
    the map as the first release left it. *)
Theorem release_twice (m : list Z) (nrooms rowid : Z) :
  0 <= rowid ->
  Z.of_nat (length m) = gstoreFdwRowIdMapSize_words nrooms ->
  fst (__gstoreFdwReleaseRowId m nrooms rowid) = true ->
  let m' := snd (__gstoreFdwReleaseRowId m nrooms rowid) in
  __gstoreFdwReleaseRowId m' nrooms rowid = (false, m').
Proof.
  intros Hr Hlen. rewrite !release_unfold.
  destruct (rowid <? nrooms) eqn:Hlt; simpl; [ | discriminate].
  destruct (leaf_bit m nrooms rowid); simpl; [ | discriminate].
  intros _. rewrite release_unfold, Hlt. simpl.
  rewrite clear_path_clears_leaf by exact Hr. reflexivity.
Qed.

(** What a release does, in the places where [__gstoreFdwReleaseRowId]
    itself looks: for a row-id below [nrooms] whose leaf bit is set it
    answers true, and afterwards the leaf bit and the bit of every level
    above it on the path are clear; for a row-id whose leaf bit is clear,
    or that is not below [nrooms], it answers false and the map is the one
    it was given. *)
Theorem release_clears_the_path (m : list Z) (nrooms rowid : Z) :
  0 <= rowid ->
  (rowid < nrooms -> leaf_bit m nrooms rowid = true ->
   exists m', __gstoreFdwReleaseRowId m nrooms rowid = (true, m') /\
     forall d, 0 <= d < levels nrooms -> path_bit m' (levels nrooms) d rowid = false)
  /\
  (nrooms <= rowid \/ leaf_bit m nrooms rowid = false ->
   __gstoreFdwReleaseRowId m nrooms rowid = (false, m)).
Proof.
  intros Hr. rewrite release_unfold. split.
  - intros Hlt Hleaf. apply Z.ltb_lt in Hlt. rewrite Hlt, Hleaf. simpl.
    eexists. split; [reflexivity | ].
    intros d Hd. unfold path_bit, bit_of.
    apply (clear_path_clears m (levels nrooms) rowid d); assumption.
  - intros [Hge | Hleaf].
    + apply Z.ltb_ge in Hge. rewrite Hge. reflexivity.
    + rewrite Hleaf, andb_false_r. reflexivity.
Qed.

End ReleaseMore.

Lemma release_touches_only_the_path_witness :
  Z.testbit (rd (gstoreFdwReleaseRowId [3; 0; 0; 0] 200 0) 0) 1
  = Z.testbit (rd [3; 0; 0; 0] 0) 1.
Proof.
  apply (release_touches_only_the_path [3; 0; 0; 0] 200 0 0 1); try lia.
  intros d Hd. right. change (levels 200) with 1 in *.
  assert (d = 0) as -> by lia. vm_compute. discriminate.
Defined.

Lemma release_twice_witness :
  __gstoreFdwReleaseRowId (snd (__gstoreFdwReleaseRowId [3; 0; 0; 0] 200 1)) 200 1
  = (false, snd (__gstoreFdwReleaseRowId [3; 0; 0; 0] 200 1)).
Proof.
  apply (release_twice [3; 0; 0; 0] 200 1); [lia | reflexivity | reflexivity].
Defined.

Lemma release_clears_the_path_witness :
  exists m', __gstoreFdwReleaseRowId (replicate 4 ULONG_MAX ++ replicate 1024 1) 65536 320
             = (true, m') /\
    forall d, 0 <= d < levels 65536 -> path_bit m' (levels 65536) d 320 = false.
Proof.
  refine (proj1 (release_clears_the_path
                   (replicate 4 ULONG_MAX ++ replicate 1024 1) 65536 320 _) _ _).
  - lia.
  - lia.
  - reflexivity.
Defined.

(** ** More on replaying the REDO log *)

Section ReplayMore.
Import TxLog.
Variable VARSIZE_ANY : Datum -> Z.
Variable offsetof_data : Z.
Variable offsetof_htup : Z.
Variable expansion_fails : Z -> option string.

Lemma seek_loop_segment redo_mmap redo_mmap_sz pos recs end_pos :
  segment offsetof_data redo_mmap redo_mmap_sz pos recs end_pos ->
  forall fuel, (List.length recs < fuel)%nat ->
    seek_loop offsetof_data fuel redo_mmap redo_mmap_sz pos = Some end_pos.
Proof.
  induction 1 as [pos Hend | pos recs end_pos Hin Hknown _ IH];
    intros [ | fuel] Hfuel; simpl in Hfuel; try lia.
  - simpl. destruct Hend as [Hend | Hend].
    + apply Z.ltb_ge in Hend. rewrite Hend. reflexivity.
    + destruct (pos + offsetof_data <? redo_mmap_sz); [ | reflexivity].
      destruct (type (record_at redo_mmap pos)); try discriminate. reflexivity.
  - simpl seek_loop. apply Z.ltb_lt in Hin. rewrite Hin.
    destruct (type (record_at redo_mmap pos)) eqn:Htype; try discriminate.
    all: apply IH; lia.
Qed.

(** The replay of a segment returns at the end of the segment, or it
    ends in the error of an expansion that fails. *)
Lemma replay_of_segment redo_mmap redo_mmap_sz recs end_pos fuel base_mmap :
  segment offsetof_data redo_mmap redo_mmap_sz
          (checkpoint_offset redo_mmap) recs end_pos ->
  (List.length recs < fuel)%nat ->
  gstoreFdwApplyRedoLog VARSIZE_ANY offsetof_data offsetof_htup expansion_fails
    fuel base_mmap redo_mmap redo_mmap_sz false
  = match apply_records VARSIZE_ANY offsetof_htup expansion_fails
            (row_records recs) base_mmap with
    | inl b => Replayed (__rebuildHashIndex (__rebuildRowIdMap b)) end_pos
    | inr msg => ReplayElog msg
    end.
Proof.
  intros Hseg Hfuel. unfold gstoreFdwApplyRedoLog, __ApplyRedoLogMain. simpl negb.
  cbv iota.
  rewrite (redo_loop_segment VARSIZE_ANY offsetof_data offsetof_htup expansion_fails
             _ _ _ _ _ Hseg fuel base_mmap Hfuel).
  destruct (apply_records _ _ _ _ _); reflexivity.
Qed.

(** For a base file that was closed in order the log is only passed
    over: the base file is the one given, and the position returned is
    the one that the replay of the same log returns (a replay that does not
    return has failed to expand the extra buffer). *)
Theorem seek_ends_where_replay_ends
    redo_mmap redo_mmap_sz recs end_pos fuel base_mmap :
  segment offsetof_data redo_mmap redo_mmap_sz
          (checkpoint_offset redo_mmap) recs end_pos ->
  (List.length recs < fuel)%nat ->
  gstoreFdwApplyRedoLog VARSIZE_ANY offsetof_data offsetof_htup expansion_fails
                        fuel base_mmap redo_mmap redo_mmap_sz true
  = Replayed base_mmap end_pos
  /\ returns_or_fails_to_expand expansion_fails
       (gstoreFdwApplyRedoLog VARSIZE_ANY offsetof_data offsetof_htup expansion_fails
                              fuel base_mmap redo_mmap redo_mmap_sz false)
       (fun _ redo_pos => redo_pos = end_pos).
Proof.
  intros Hseg Hfuel. split.
  - unfold gstoreFdwApplyRedoLog. simpl.
    rewrite (seek_loop_segment _ _ _ _ _ Hseg fuel Hfuel). reflexivity.
  - rewrite (replay_of_segment _ _ _ _ _ _ Hseg Hfuel).
    destruct (apply_records _ _ _ _ _) as [b | msg] eqn:Happly; simpl;
      [reflexivity | ].
    apply (apply_records_error VARSIZE_ANY offsetof_htup expansion_fails
             (row_records recs) base_mmap msg); [ | exact Happly].
    apply row_records_kinds. apply (segment_known _ _ _ _ _ _ Hseg).
Qed.

Lemma redo_loop_stalls redo_mmap redo_mmap_sz pos :
  pos + offsetof_data < redo_mmap_sz ->
  known_type (type (record_at redo_mmap pos)) = true ->
  length (record_at redo_mmap pos) = 0 ->
  forall fuel base_mmap,
    never_returns expansion_fails
      (redo_loop VARSIZE_ANY offsetof_data offsetof_htup expansion_fails fuel
                 redo_mmap redo_mmap_sz base_mmap pos).
Proof.
  intros Hin Hknown Hlen. apply Z.ltb_lt in Hin.
  induction fuel as [ | fuel IH]; intros base_mmap; [exact I | ].
  simpl. rewrite Hin, Hlen, Z.add_0_r.
  destruct (type (record_at redo_mmap pos)) eqn:Htype; try discriminate.
  1-3: destruct (apply_row_log VARSIZE_ANY offsetof_htup expansion_fails base_mmap
                   (record_at redo_mmap pos)) as [base1 | msg] eqn:Happly;
    [apply IH | ];
    simpl;
    apply (apply_row_log_error VARSIZE_ANY offsetof_htup expansion_fails
             base_mmap (record_at redo_mmap pos) msg);
    [rewrite Htype; reflexivity | rewrite Htype; reflexivity | exact Happly].
  apply IH.
Qed.

Lemma seek_loop_stalls redo_mmap redo_mmap_sz pos :
  pos + offsetof_data < redo_mmap_sz ->
  known_type (type (record_at redo_mmap pos)) = true ->
  length (record_at redo_mmap pos) = 0 ->
  forall fuel, seek_loop offsetof_data fuel redo_mmap redo_mmap_sz pos = None.
Proof.
  intros Hin Hknown Hlen. apply Z.ltb_lt in Hin.
  induction fuel as [ | fuel IH]; [reflexivity | ].
  simpl. rewrite Hin, Hlen, Z.add_0_r.
  destruct (type (record_at redo_mmap pos)); try discriminate; apply IH.
Qed.

(** A record of a known kind whose [length] field is 0, at the
    checkpoint, stalls both loops: the position does not advance, so
    neither the replay nor the seek returns, however many rounds they are
    given (the replay of a row record can still end, in the error of an
    expansion that fails). *)
Theorem record_of_length_zero_stalls_recovery
    redo_mmap redo_mmap_sz base_mmap basefile_is_sanity :
  checkpoint_offset redo_mmap + offsetof_data < redo_mmap_sz ->
  known_type (type (record_at redo_mmap (checkpoint_offset redo_mmap))) = true ->
  length (record_at redo_mmap (checkpoint_offset redo_mmap)) = 0 ->
  forall fuel,
    never_returns expansion_fails
      (gstoreFdwApplyRedoLog VARSIZE_ANY offsetof_data offsetof_htup expansion_fails
         fuel base_mmap redo_mmap redo_mmap_sz basefile_is_sanity).
Proof.
  intros Hin Hknown Hlen fuel. unfold gstoreFdwApplyRedoLog, __ApplyRedoLogMain.
  destruct basefile_is_sanity; simpl.
  - rewrite seek_loop_stalls by assumption. exact I.
  - pose proof (redo_loop_stalls redo_mmap redo_mmap_sz (checkpoint_offset redo_mmap)
                  Hin Hknown Hlen fuel base_mmap) as Hstall.
    destruct (redo_loop _ _ _ _ _ _ _ _ _); [contradiction | exact Hstall | exact I].
Qed.

End ReplayMore.

Lemma log_insert_commit_delete_segment :
  segment 8 log_insert_commit_delete 4096 24
          [TxLog.record_at log_insert_commit_delete 24;
           TxLog.record_at log_insert_commit_delete 88;
           TxLog.record_at log_insert_commit_delete 112]
          176.
Proof.
  apply segment_record; [reflexivity | reflexivity | ].
  change (24 + TxLog.length (TxLog.record_at log_insert_commit_delete 24)) with 88.
  apply segment_record; [reflexivity | reflexivity | ].
  change (88 + TxLog.length (TxLog.record_at log_insert_commit_delete 88)) with 112.
  apply segment_record; [reflexivity | reflexivity | ].
  change (112 + TxLog.length (TxLog.record_at log_insert_commit_delete 112)) with 176.
  apply segment_end. right. reflexivity.
Defined.

Lemma seek_ends_where_replay_ends_witness :
  gstoreFdwApplyRedoLog (fun _ => 16) 8 24 expansion_succeeds 10 sample_base
                        log_insert_commit_delete 4096 true
  = Replayed sample_base 176
  /\ returns_or_fails_to_expand expansion_succeeds
       (gstoreFdwApplyRedoLog (fun _ => 16) 8 24 expansion_succeeds 10 sample_base
                              log_insert_commit_delete 4096 false)
       (fun _ redo_pos => redo_pos = 176).
Proof.
  apply (seek_ends_where_replay_ends (fun _ => 16) 8 24 expansion_succeeds
           log_insert_commit_delete 4096 _ 176 10 sample_base
           log_insert_commit_delete_segment).
  simpl. lia.
Defined.

Lemma record_of_length_zero_stalls_recovery_witness :
  never_returns expansion_succeeds
    (gstoreFdwApplyRedoLog (fun _ => 16) 8 24 expansion_succeeds 1000 sample_base
                           log_empty_record 4096 false).
Proof.
  apply (record_of_length_zero_stalls_recovery (fun _ => 16) 8 24 expansion_succeeds
           log_empty_record 4096 sample_base false);
    reflexivity.
Defined.

(** ** More on writing the REDO log *)

Section WriterMore.
Import TxLog RedoLog.
Variable random : nat -> Z.
Variable GetCurrentTimestamp : Z.
Variable offsetof_htup : Z.
Variable head_bytes : log_type -> Z -> Z -> Z -> TransactionId -> list Z.
Variable tdtypeid : Z.
Variable tdtypmod : Z.




(** A record that does not fit between the header and [redo_log_limit]
    is never written: every round of the append rotates the log and
    tries again, so the call does not return, whatever the number of
    rounds it is given; it can only end in an error. *)
Theorem oversize_record_is_never_written
    fuel w log_type rowid xid tuple updatedCols :
  redo_head_sz <= redo_log_pos (gs_sstate w) ->
  redo_log_limit (gs_sstate w)
  < redo_head_sz + r_len_of offsetof_htup tuple updatedCols ->
  forall w',
    gstoreFdwAppendRedoLog random GetCurrentTimestamp offsetof_htup head_bytes
                           tdtypeid tdtypmod fuel w log_type rowid xid tuple
                           updatedCols
    <> Ok w'.
Proof.
  intros Hpos Hhead w'. unfold gstoreFdwAppendRedoLog.
  destruct (setup_GstoreTxLogRow _ _ _ _ _ _ _ _ _ _) as [r_log | what] eqn:Hsetup;
    [ | discriminate].
  assert (Hlen : length r_log = r_len_of offsetof_htup tuple updatedCols).
  { unfold setup_GstoreTxLogRow in Hsetup.
    destruct log_type; try (injection Hsetup as <-; reflexivity).
    destruct updatedCols as [words | ]; [ | discriminate].
    destruct (_ <=? _); [ | discriminate].
    injection Hsetup as <-. reflexivity. }
  apply append_retry_oversize; simpl; rewrite Hlen; lia.
Qed.

End WriterMore.



Lemma oversize_record_is_never_written_witness :
  ~ exists w',
      RedoLog.gstoreFdwAppendRedoLog sample_random 0 24 sample_head 16384 (-1) 1000
        world_small_limit TxLog.GSTORE_TX_LOG__INSERT 0 100 sample_tuple None
      = RedoLog.Ok w'.
Proof.
  intros [w' Hw']. revert Hw'.
  apply (oversize_record_is_never_written sample_random 0 24 sample_head 16384 (-1)
           1000 world_small_limit TxLog.GSTORE_TX_LOG__INSERT 0 100 sample_tuple None).
  - vm_compute. discriminate.
  - vm_compute. reflexivity.
Defined.

(** ** What is appended is what recovery replays *)

Section AppendReplay.
Import TxLog RedoLog.
Variable random : nat -> Z.
Variable GetCurrentTimestamp : Z.
Variable offsetof_htup : Z.
Variable head_bytes : log_type -> Z -> Z -> Z -> TransactionId -> list Z.
Variable tdtypeid : Z.
Variable tdtypmod : Z.
Variable VARSIZE_ANY : Datum -> Z.
Variable offsetof_data : Z.
Variable expansion_fails : Z -> option string.







End AppendReplay.


(** ** A record of the log as an assignment to the locations of the store *)

Section ReplayAsAssignment.
Import TxLog.
Variable VARSIZE_ANY : Datum -> Z.

Lemma elem_seqZ_bool j n : bool_decide (j ∈ seqZ 0 n) = (0 <=? j) && (j <? n).
Proof.
  destruct ((0 <=? j) && (j <? n)) eqn:Hb.
  - apply andb_true_iff in Hb as [H0 Hn]. apply Z.leb_le in H0. apply Z.ltb_lt in Hn.
    apply bool_decide_eq_true. apply elem_of_seqZ. lia.
  - apply bool_decide_eq_false. intros Hin. apply elem_of_seqZ in Hin.
    apply andb_false_iff in Hb as [Hb | Hb].
    + apply Z.leb_gt in Hb. lia.
    + apply Z.ltb_ge in Hb. lia.
Qed.

Lemma syscol_set_sysattr k row s row0 :
  syscol (set_sysattr k row s) !! row0
  = if decide (row0 = row) then Some s else syscol k !! row0.
Proof.
  simpl. rewrite lookup_insert. repeat case_decide; congruence.
Qed.

Lemma sysattr_at_set k row s row0 :
  sysattr_at (set_sysattr k row s) row0
  = if decide (row0 = row) then s else sysattr_at k row0.
Proof.
  unfold sysattr_at. rewrite syscol_set_sysattr. case_decide; reflexivity.
Qed.

Lemma colmeta_store kds j row d :
  colmeta (KDS_store_datum_column VARSIZE_ANY kds j row d) = colmeta kds.
Proof.
  unfold KDS_store_datum_column. destruct d; [ | reflexivity].
  destruct (_ =? -1); reflexivity.
Qed.

Lemma colmeta_fold_store c v old row js k :
  colmeta (fold_left (store_column VARSIZE_ANY c v old row) js k) = colmeta k.
Proof.
  revert k. induction js as [ | j js IH]; intros k; [reflexivity | ].
  simpl. rewrite IH. apply colmeta_store.
Qed.

Lemma colmeta_apply_to_store k r :
  colmeta (apply_to_store VARSIZE_ANY k r) = colmeta k.
Proof.
  unfold apply_to_store. destruct (type r); try reflexivity.
  - unfold __ApplyRedoLogInsert. simpl.
    apply (colmeta_fold_store (fun _ => false) (deformed (htup r)) 0 (rowid r)).
  - unfold __ApplyRedoLogUpdate. simpl.
    apply (colmeta_fold_store
             (fun j => is_update (type r) && mask_bit (update_mask r) j)
             (deformed (htup r)) (oldid r) (rowid r)).
Qed.

Lemma natts_apply_to_store k r : natts (apply_to_store VARSIZE_ANY k r) = natts k.
Proof. unfold natts. rewrite colmeta_apply_to_store. reflexivity. Qed.

Lemma same_frame_apply_to_store k r :
  Forall (fun attlen => attlen <> -1) (colmeta k) ->
  same_frame k (apply_to_store VARSIZE_ANY k r).
Proof.
  intros Hall. unfold apply_to_store.
  destruct (type r); try apply same_frame_refl.
  - unfold __ApplyRedoLogInsert.
    eapply same_frame_trans; [ | apply same_frame_set_sysattr].
    apply (fold_store_frame VARSIZE_ANY (fun _ => false) (deformed (htup r)) 0
             (rowid r)). exact Hall.
  - unfold __ApplyRedoLogUpdate.
    eapply same_frame_trans; [ | apply same_frame_set_sysattr].
    eapply same_frame_trans; [ | apply same_frame_set_sysattr].
    apply (fold_store_frame VARSIZE_ANY
             (fun j => is_update (type r) && mask_bit (update_mask r) j)
             (deformed (htup r)) (oldid r) (rowid r)). exact Hall.
  - unfold __ApplyRedoLogDelete. apply same_frame_set_sysattr.
Qed.

(** The cells after the loop over the columns of an INSERT or UPDATE. *)
Lemma cells_after_columns c v old row k j0 row0 :
  cells (fold_left (store_column VARSIZE_ANY c v old row) (seqZ 0 (natts k)) k)
        !! (j0, row0)
  = if (row0 =? row) && (0 <=? j0) && (j0 <? natts k)
    then (if c j0 then cells k !! (j0, old) else v j0)
    else cells k !! (j0, row0).
Proof.
  rewrite fold_store_cells by apply NoDup_seqZ.
  rewrite elem_seqZ_bool, andb_assoc. reflexivity.
Qed.

Ltac row_cases :=
  repeat match goal with
         | |- context [decide (?a = ?b)] => destruct (decide (a = b)); subst
         | |- context [?a =? ?b] => destruct (Z.eqb_spec a b); subst
         end; simpl; try reflexivity; try congruence.

(** What a record does to the store is the assignment it stands for. *)
Lemma view_apply k r l :
  view (apply_to_store VARSIZE_ANY k r) l
  = assign (view k) (assignment_of (natts k) r) l.
Proof.
  unfold assign, assignment_of, apply_to_store. cbn [fst snd].
  destruct (type r) eqn:Htype.
  - (* INSERT *)
    unfold __ApplyRedoLogInsert.
    match goal with
    | |- context [fold_left ?f ?js k] => set (K1 := fold_left f js k)
    end.
    assert (Hcells : forall j0 row0,
              cells K1 !! (j0, row0)
              = if (row0 =? rowid r) && (0 <=? j0) && (j0 <? natts k)
                then deformed (htup r) j0 else cells k !! (j0, row0))
      by (intros j0 row0;
          exact (cells_after_columns (fun _ => false) (deformed (htup r)) 0
                   (rowid r) k j0 row0)).
    assert (Hsys : syscol K1 = syscol k)
      by exact (fold_store_syscol VARSIZE_ANY (fun _ => false) (deformed (htup r)) 0
                  (rowid r) (seqZ 0 (natts k)) k).
    clearbody K1.
    destruct l as [j0 row0 | row0 | row0 | row0 | row0]; unfold targets, values, view;
      rewrite Htype.
    + change (cells (set_sysattr K1 ?b ?c)) with (cells K1). rewrite Hcells.
      reflexivity.
    + rewrite sysattr_at_set. unfold sysattr_at. rewrite Hsys. row_cases.
    + rewrite sysattr_at_set. unfold sysattr_at. rewrite Hsys. row_cases.
    + rewrite sysattr_at_set. unfold sysattr_at. rewrite Hsys. row_cases.
    + rewrite syscol_set_sysattr, Hsys. row_cases.
  - (* UPDATE *)
    unfold __ApplyRedoLogUpdate, KDS_fetch_sysattr. cbv zeta. cbv iota.
    match goal with
    | |- context [fold_left ?f ?js k] => set (K1 := fold_left f js k)
    end.
    assert (Hcells : forall j0 row0,
              cells K1 !! (j0, row0)
              = if (row0 =? rowid r) && (0 <=? j0) && (j0 <? natts k)
                then (if is_update (type r) && mask_bit (update_mask r) j0
                      then cells k !! (j0, oldid r) else deformed (htup r) j0)
                else cells k !! (j0, row0))
      by (intros j0 row0;
          exact (cells_after_columns
                   (fun j => is_update (type r) && mask_bit (update_mask r) j)
                   (deformed (htup r)) (oldid r) (rowid r) k j0 row0)).
    assert (Hsys : syscol K1 = syscol k)
      by exact (fold_store_syscol VARSIZE_ANY
                  (fun j => is_update (type r) && mask_bit (update_mask r) j)
                  (deformed (htup r)) (oldid r)
                  (rowid r) (seqZ 0 (natts k)) k).
    clearbody K1. fold (oldid r).
    destruct l as [j0 row0 | row0 | row0 | row0 | row0]; unfold targets, values, view;
      rewrite Htype.
    + change (cells (set_sysattr (set_sysattr K1 ?b ?c) ?d ?e)) with (cells K1).
      rewrite Hcells, Htype. reflexivity.
    + rewrite !sysattr_at_set. unfold sysattr_at. rewrite Hsys. row_cases.
    + rewrite !sysattr_at_set. unfold sysattr_at. rewrite Hsys. row_cases.
    + rewrite !sysattr_at_set. unfold sysattr_at. rewrite Hsys. row_cases.
    + rewrite !syscol_set_sysattr, Hsys. row_cases.
  - (* DELETE *)
    unfold __ApplyRedoLogDelete.
    destruct l as [j0 row0 | row0 | row0 | row0 | row0]; unfold targets, values, view;
      rewrite Htype.
    + reflexivity.
    + rewrite sysattr_at_set. row_cases.
    + rewrite sysattr_at_set. row_cases.
    + rewrite sysattr_at_set. row_cases.
    + rewrite syscol_set_sysattr. row_cases.
  - destruct l; unfold targets; rewrite Htype; reflexivity.
  - destruct l; unfold targets; rewrite Htype; reflexivity.
Qed.

End ReplayAsAssignment.

Section ReplayTwice.
Import TxLog.
Variable VARSIZE_ANY : Datum -> Z.
Variable offsetof_data : Z.
Variable offsetof_htup : Z.
Variable expansion_fails : Z -> option string.


Lemma run_proper (steps : list (@assignment loc (option Z))) :
  (forall s, s ∈ steps -> forall f g l, (forall l', f l' = g l') -> s.2 f l = s.2 g l) ->
  forall f g, (forall l, f l = g l) -> forall l, run steps f l = run steps g l.
Proof.
  induction steps as [ | s steps IH]; intros Hsteps f g Hfg l; [apply Hfg | ].
  unfold run. simpl. apply IH.
  - intros s' Hs'. apply Hsteps. right. exact Hs'.
  - intros l'. unfold assign. rewrite Hfg.
    destruct (s.1 l'); [ | reflexivity].
    apply (Hsteps s); [left | exact Hfg].
Qed.

Lemma values_proper r f g l : (forall l', f l' = g l') -> values r f l = values r g l.
Proof.
  intros Hfg. destruct l; simpl; try reflexivity.
  rewrite Hfg. reflexivity.
Qed.

Lemma assignments_proper n recs :
  forall s, s ∈ map (assignment_of n) recs ->
  forall f g l, (forall l', f l' = g l') -> s.2 f l = s.2 g l.
Proof.
  intros s Hs f g l Hfg. apply list_elem_of_fmap in Hs as (r & -> & _).
  simpl. apply values_proper. exact Hfg.
Qed.

(** A replay of the records [recs] is the run of their assignments. *)
Lemma view_fold recs k l :
  view (fold_left (apply_to_store VARSIZE_ANY) recs k) l
  = run (map (assignment_of (natts k)) recs) (view k) l.
Proof.
  revert k l. induction recs as [ | r recs IH]; intros k l; [reflexivity | ].
  simpl fold_left. rewrite IH. rewrite natts_apply_to_store.
  unfold run at 2. simpl.
  apply run_proper; [apply assignments_proper | ].
  intros l'. apply view_apply.
Qed.


Lemma fixed_width_apply k r :
  fixed_width k -> fixed_width (apply_to_store VARSIZE_ANY k r).
Proof.
  intros [Hvar Hall].
  destruct (same_frame_apply_to_store VARSIZE_ANY k r Hall)
    as (_ & _ & Hmeta & Hvar' & _).
  split; [congruence | ]. rewrite Hmeta. exact Hall.
Qed.

Lemma same_frame_fold recs k :
  fixed_width k -> same_frame k (fold_left (apply_to_store VARSIZE_ANY) recs k).
Proof.
  revert k. induction recs as [ | r recs IH]; intros k Hfix; [apply same_frame_refl | ].
  simpl. eapply same_frame_trans.
  - apply same_frame_apply_to_store. apply Hfix.
  - apply IH. apply fixed_width_apply. exact Hfix.
Qed.


Lemma apply_row_log_fixed base_mmap r :
  has_varlena (schema base_mmap) = false ->
  known_type (type r) = true -> is_commit (type r) = false ->
  apply_row_log VARSIZE_ANY offsetof_htup expansion_fails base_mmap r
  = inl (set_schema base_mmap (apply_to_store VARSIZE_ANY (schema base_mmap) r)).
Proof.
  intros Hvar Hknown Hrow. unfold apply_row_log, apply_to_store. rewrite Hvar. simpl.
  destruct (type r); try discriminate; reflexivity.
Qed.

Lemma apply_records_fixed recs base_mmap :
  fixed_width (schema base_mmap) ->
  Forall (fun r => known_type (type r) = true /\ is_commit (type r) = false) recs ->
  apply_records VARSIZE_ANY offsetof_htup expansion_fails recs base_mmap
  = inl (set_schema base_mmap
           (fold_left (apply_to_store VARSIZE_ANY) recs (schema base_mmap))).
Proof.
  revert base_mmap. induction recs as [ | r recs IH]; intros base_mmap Hfix Hall.
  - destruct base_mmap; reflexivity.
  - apply Forall_cons in Hall as [[Hk Hr] Hall]. simpl.
    rewrite apply_row_log_fixed by (try apply Hfix; assumption).
    rewrite IH by (try (apply fixed_width_apply; exact Hfix); assumption).
    reflexivity.
Qed.


(** The replay of a log on a base file without columns of variable
    length returns, at the end of the log, and what the store then holds
    at every cell and system attribute is what the records of the log
    that change rows assign, one after the other in the order of the
    log, to what the store held; the frame of the store, the row-id map,
    the hash index and the size of the file are the ones given. *)
Theorem replay_is_the_run_of_the_records
    redo_mmap redo_mmap_sz recs end_pos fuel base_mmap :
  fixed_width (schema base_mmap) ->
  segment offsetof_data redo_mmap redo_mmap_sz
          (checkpoint_offset redo_mmap) recs end_pos ->
  (List.length recs < fuel)%nat ->
  exists recovered,
    gstoreFdwApplyRedoLog VARSIZE_ANY offsetof_data offsetof_htup expansion_fails
                          fuel base_mmap redo_mmap redo_mmap_sz false
    = Replayed recovered end_pos
    /\ (forall l,
          view (schema recovered) l
          = run (map (assignment_of (natts (schema base_mmap))) (row_records recs))
                (view (schema base_mmap)) l)
    /\ same_frame (schema base_mmap) (schema recovered)
    /\ rowid_map recovered = rowid_map base_mmap
    /\ hash_index recovered = hash_index base_mmap
    /\ base_mmap_sz recovered = base_mmap_sz base_mmap.
Proof.
  intros Hfix Hseg Hfuel.
  rewrite (replay_of_segment VARSIZE_ANY offsetof_data offsetof_htup expansion_fails
             _ _ _ _ fuel base_mmap Hseg Hfuel).
  rewrite (apply_records_fixed (row_records recs) base_mmap Hfix)
    by (apply row_records_kinds; apply (segment_known _ _ _ _ _ _ Hseg)).
  unfold __rebuildHashIndex, __rebuildRowIdMap.
  eexists. split; [reflexivity | ]. simpl.
  split; [intros l; apply view_fold | ].
  split; [apply same_frame_fold; exact Hfix | ].
  repeat split.
Qed.


End ReplayTwice.


Lemma replay_is_the_run_of_the_records_witness :
  exists recovered,
    gstoreFdwApplyRedoLog (fun _ => 16) 8 24 expansion_succeeds 5 sample_base
      log_insert_commit_delete 4096 false
    = Replayed recovered 176
    /\ view (schema recovered) (Cell 0 0) = Some 7
    /\ view (schema recovered) (Xmax 0) = Some 100.
Proof.
  destruct (replay_is_the_run_of_the_records (fun _ => 16) 8 24 expansion_succeeds
              log_insert_commit_delete 4096
              [TxLog.record_at log_insert_commit_delete 24;
               TxLog.record_at log_insert_commit_delete 88;
               TxLog.record_at log_insert_commit_delete 112]
              176 5 sample_base)
    as (recovered & Hreplay & Hview & _).
  - split; [reflexivity | ]. repeat constructor. discriminate.
  - exact log_insert_commit_delete_segment.
  - simpl. lia.
  - exists recovered. split; [exact Hreplay | ].
    split; rewrite Hview; vm_compute; reflexivity.
Defined.

